(** * The persistent schema of the course/vacancy/news bot and its seed script

    A shallow embedding of [database/models.py].  The module is a SQLAlchemy
    declarative schema (six mapped classes over a common abstract base) and a
    script, [recreate_database], that drops, recreates and seeds the tables.

    The declarations are embedded as data, written the way the source writes
    them ([Column name type [options]]), and a relational store interprets
    them.  The store is the one the module's engine talks to, PostgreSQL
    through the asyncpg driver: an [Insert] or [Update] statement is refused
    before it is sent when it names an unknown column or gives a value that
    is not of the column's type and range; the store then fills in the
    declared defaults, drawing the key from the table's sequence, and rejects
    the statement when a declared NOT NULL, UNIQUE / PRIMARY KEY or FOREIGN
    KEY constraint is violated.  A value drawn from a sequence stays drawn
    when the statement is rejected or its transaction rolled back.
    Timestamps are integers (a number of clock ticks); every reading of
    [datetime.datetime.now] is an explicit input.  Strings are the UTF-8
    encoding of the Python strings.  The [relationship] attributes are read
    as the joins that the foreign keys declare. *)

From stdpp Require Import base option strings pretty gmap list fin_maps.
From Stdlib Require Import ZArith Lia.

Set Warnings "-clear-no-such-hyp".

Open Scope string_scope.
Open Scope list_scope.
Open Scope Z_scope.

(** ** Column types of [sqlalchemy] *)
Module sa.
Inductive type := Integer | String | TIMESTAMP | SmallInteger | BigInteger | Text.
End sa.

#[global] Instance sa_type_eq_dec : EqDecision sa.type.
Proof. solve_decision. Defined.

(** ** Values, rows and exceptions *)

(** A stored value.  SQL NULL (Python [None]) is the absence of a key in a
    row. *)
Inductive Value :=
  | VInt (n : Z)
  | VStr (s : string)
  | VTime (t : Z).

#[global] Instance Value_eq_dec : EqDecision Value.
Proof. solve_decision. Defined.

(** A row, and also the keyword arguments of a constructor call. *)
Abbreviation Row := (gmap string Value).

(** The callables that [onupdate] can name. *)
Inductive Callable := datetime_now.

#[global] Instance Callable_eq_dec : EqDecision Callable.
Proof. solve_decision. Defined.

(** The keyword arguments of [Column(...)].  [ForeignKey "t" "c"] stands for
    [ForeignKey('t.c')]. *)
Inductive ColumnArg :=
  | nullable (b : bool)
  | unique (b : bool)
  | primary_key (b : bool)
  | autoincrement (b : bool)
  | server_default (v : Value)
  | default (v : Value)
  | onupdate (f : Callable)
  | ForeignKey (table column : string)
  | comment (text : string).

#[global] Instance ColumnArg_eq_dec : EqDecision ColumnArg.
Proof. solve_decision. Defined.

Record Column := mkColumn {
  name : string;
  type_ : sa.type;
  args : list ColumnArg
}.

#[global] Instance Column_eq_dec : EqDecision Column.
Proof. solve_decision. Defined.

(** What a column's arguments amount to; absent arguments take SQLAlchemy's
    defaults (a column is nullable unless it is part of the primary key). *)
Fixpoint find_arg {A} (f : ColumnArg → option A) (l : list ColumnArg) : option A :=
  match l with
  | [] => None
  | a :: l' => match f a with Some x => Some x | None => find_arg f l' end
  end.

Definition is_primary_key (c : Column) : bool :=
  from_option id false
    (find_arg (λ a, match a with primary_key b => Some b | _ => None end) (args c)).

Definition is_unique (c : Column) : bool :=
  from_option id false
    (find_arg (λ a, match a with unique b => Some b | _ => None end) (args c)).

Definition is_nullable (c : Column) : bool :=
  from_option id (negb (is_primary_key c))
    (find_arg (λ a, match a with nullable b => Some b | _ => None end) (args c)).

Definition is_autoincrement (c : Column) : bool :=
  is_primary_key c &&
  from_option id false
    (find_arg (λ a, match a with autoincrement b => Some b | _ => None end) (args c)).

Definition get_server_default (c : Column) : option Value :=
  find_arg (λ a, match a with server_default v => Some v | _ => None end) (args c).

Definition get_default (c : Column) : option Value :=
  find_arg (λ a, match a with default v => Some v | _ => None end) (args c).

Definition get_onupdate (c : Column) : option Callable :=
  find_arg (λ a, match a with onupdate f => Some f | _ => None end) (args c).

Definition get_foreign_key (c : Column) : option (string * string) :=
  find_arg (λ a, match a with ForeignKey t k => Some (t, k) | _ => None end) (args c).


(** ** The declared schema *)

(** The two readings of the clock taken while the body of [BaseModel] is
    executed, once for each [str(datetime.datetime.now())]. *)
Record ModuleLoad := mkLoad {
  created_at_now : Z;
  updated_at_now : Z
}.

(** [str] of a clock reading, as handed to [server_default]: the literal the
    store parses back into the same timestamp. *)
Definition str (t : Z) : Value := VTime t.

Record Model := mkModel {
  tablename : string;
  columns : list Column
}.

#[global] Instance Model_eq_dec : EqDecision Model.
Proof. solve_decision. Defined.

Section Models.
Variable load : ModuleLoad.

(** [class BaseModel(Base)], abstract: its columns head every table. *)
Definition BaseModel_id : Column :=
  mkColumn "id" sa.Integer
    [nullable false; unique true; primary_key true; autoincrement true].

Definition BaseModel_created_at : Column :=
  mkColumn "created_at" sa.TIMESTAMP
    [nullable false;
     server_default (str (created_at_now load));
     comment "The date an object has been created"].

Definition BaseModel_updated_at : Column :=
  mkColumn "updated_at" sa.TIMESTAMP
    [nullable false;
     server_default (str (updated_at_now load));
     onupdate datetime_now;
     comment "The date an object has been updated"].

Definition BaseModel : list Column :=
  [BaseModel_id; BaseModel_created_at; BaseModel_updated_at].

Definition Reception : Model :=
  mkModel "reception" (BaseModel ++
    [ mkColumn "apply" sa.Integer
        [nullable false;
         comment "How much times the APPLY button has been pressed";
         default (VInt 1)];
      mkColumn "about_courses" sa.BigInteger
        [nullable false;
         comment "How much times the ABOUT_COURSES button has been pressed";
         default (VInt 1)];
      mkColumn "about_company" sa.Integer
        [nullable false;
         comment "How much times the ABOUT_COMPANY button has been pressed";
         default (VInt 1)];
      mkColumn "vacancies" sa.BigInteger
        [nullable false;
         comment "How much times the VACANCIES button has been pressed";
         default (VInt 1)];
      mkColumn "news" sa.Integer
        [nullable false;
         comment "How much times the NEWS button has been pressed";
         default (VInt 1)] ]).

Definition Department : Model :=
  mkModel "department" (BaseModel ++
    [ mkColumn "department_name" sa.String
        [nullable false; unique true; comment "Programming language name"] ]).

Definition Customer : Model :=
  mkModel "customer" (BaseModel ++
    [ mkColumn "chat_id" sa.Integer
        [nullable false;
         comment "The chat id of User who applied for registration"];
      mkColumn "first_name" sa.String
        [nullable false;
         comment "How much times the apply button has been pressed"];
      mkColumn "last_name" sa.String
        [nullable true;
         comment "How much times the apply button has been pressed"];
      mkColumn "phone" sa.BigInteger
        [nullable true;
         comment "How much times the apply button has been pressed"];
      mkColumn "time" sa.SmallInteger
        [nullable true;
         comment "The time when a group start to study. Morning or Evening"];
      mkColumn "department_name" sa.String
        [ForeignKey "department" "department_name"] ]).

Definition Course : Model :=
  mkModel "course" (BaseModel ++
    [ mkColumn "department_id" sa.Integer
        [ForeignKey "department" "id"];
      mkColumn "department_info" sa.Text
        [nullable false; comment "The information about course"] ]).

Definition Vacancy : Model :=
  mkModel "vacancy" (BaseModel ++
    [ mkColumn "vacancy_type" sa.SmallInteger
        [nullable false;
         comment "If VACANCY_TYPE = 1 it means that vacancy provided by P-Programist, otherwise the vacancy provided by another resource"];
      mkColumn "department_id" sa.Integer
        [ForeignKey "department" "id"];
      mkColumn "vacancy_label" sa.String
        [nullable false; comment "The header of vacancy"];
      mkColumn "vacancy_info" sa.Text
        [nullable false; comment "These are the details of vacancy"] ]).

Definition News : Model :=
  mkModel "news" (BaseModel ++
    [ mkColumn "department_id" sa.Integer
        [ForeignKey "department" "id"];
      mkColumn "news_source" sa.String
        [nullable false;
         comment "The source where the statistic has been taken from"];
      mkColumn "news_label" sa.String
        [nullable false; comment "The header of an article"] ]).

(** [Base.metadata]: the tables in the order the classes are declared. *)
Definition metadata : list Model :=
  [Reception; Department; Customer; Course; Vacancy; News].
End Models.


(** ** The store *)

(** A table as the store holds it: the column declarations it was created
    from (the literals of [server_default] are fixed then), its rows in
    insertion order, and the next value of the sequence behind its
    auto-incremented key. *)
Record Table := mkTable {
  schema : list Column;
  rows : list Row;
  sequence : Z
}.

Abbreviation Database := (gmap string Table).

Inductive Violation := NotNullViolation | UniqueViolation | ForeignKeyViolation.

(** What the script and a statement can raise: a statement that names a
    column the table does not declare ([CompileError], raised while the
    statement is compiled), a value that is not of its column's type or
    range, or a sequence that has run out of its column's range
    ([DataError]), a constraint violation ([IntegrityError]) on a column of a
    table, a table that cannot be dropped because another table still refers
    to it ([InternalError], PostgreSQL's DependentObjectsStillExist), a table
    or column that does not exist ([ProgrammingError]), or a store that
    cannot be reached ([OperationalError]). *)
Inductive Exception :=
  | CompileError (table : string)
  | DataError (table column : string)
  | IntegrityError (kind : Violation) (table column : string)
  | InternalError (table : string)
  | ProgrammingError (table : string)
  | OperationalError.

Inductive Result (A : Type) :=
  | Ok (a : A)
  | Raise (e : Exception).
Arguments Ok {A} a.
Arguments Raise {A} e.

#[global] Instance Result_ret : MRet Result := λ A a, Ok a.
#[global] Instance Result_bind : MBind Result := λ A B f m,
  match m with Ok a => f a | Raise e => Raise e end.

(** [r] holds value [v] in column [k]. *)
Definition holds (k : string) (v : Value) (r : Row) : bool :=
  bool_decide (r !! k = Some v).

(** The value a column takes when the statement gives none: the Python-side
    [default], else the [server_default], else the next value of the sequence for the
    auto-incremented key, else NULL. *)
Definition default_value (seq : Z) (c : Column) : option Value :=
  match get_default c with
  | Some v => Some v
  | None =>
      match get_server_default c with
      | Some v => Some v
      | None => if is_autoincrement c then Some (VInt seq) else None
      end
  end.

(** The values of a statement: a column is left out (no entry), set to NULL
    ([Some None]) or set to a value. *)
Abbreviation Values := (gmap string (option Value)).

(** What the driver accepts for a column of a given type: an [int] within
    the range of the integer type, a [str] without a NUL character, a
    [datetime]. *)
Fixpoint no_nul (s : string) : bool :=
  match s with
  | EmptyString => true
  | String a s' => negb (Ascii.eqb a Ascii.zero) && no_nul s'
  end.

Definition fits (ty : sa.type) (v : Value) : bool :=
  match ty, v with
  | sa.SmallInteger, VInt n => bool_decide (-32768 ≤ n ≤ 32767)
  | sa.Integer, VInt n => bool_decide (-2147483648 ≤ n ≤ 2147483647)
  | sa.BigInteger, VInt n =>
      bool_decide (-9223372036854775808 ≤ n ≤ 9223372036854775807)
  | sa.String, VStr s | sa.Text, VStr s => no_nul s
  | sa.TIMESTAMP, VTime _ => true
  | _, _ => false
  end.

(** The first key of [vals] that names no column, and the first column whose
    given value does not fit its type. *)
Definition unknown_key (cols : list Column) (vals : Values) : option string :=
  find (λ k, bool_decide (k ∉ name <$> cols)) (fst <$> map_to_list vals).

Definition ill_typed (cols : list Column) (vals : Values) : option string :=
  name <$> find (λ c, match vals !! name c with
                      | Some (Some v) => negb (fits (type_ c) v)
                      | _ => false
                      end) cols.

(** The values a statement can be sent with. *)
Definition well_typed (cols : list Column) (vals : Values) : Prop :=
  unknown_key cols vals = None ∧ ill_typed cols vals = None.

#[global] Instance well_typed_dec cols vals : Decision (well_typed cols vals).
Proof. unfold well_typed. apply _. Defined.

Definition check_values (t : string) (cols : list Column) (vals : Values) : Result () :=
  match unknown_key cols vals with
  | Some _ => Raise (CompileError t)
  | None =>
      match ill_typed cols vals with
      | Some k => Raise (DataError t k)
      | None => Ok ()
      end
  end.

(** The row an [Insert] stores: for each declared column the given value,
    NULL if the statement sets it to NULL, or its default if the statement
    leaves it out. *)
Fixpoint fill (cols : list Column) (seq : Z) (vals : Values) : Row :=
  match cols with
  | [] => ∅
  | c :: cs =>
      match vals !! name c with
      | Some (Some v) => <[name c := v]> (fill cs seq vals)
      | Some None => fill cs seq vals
      | None =>
          match default_value seq c with
          | Some v => <[name c := v]> (fill cs seq vals)
          | None => fill cs seq vals
          end
      end
  end.

(** Whether filling [vals] draws the value of column [c], or of some column,
    from the sequence. *)
Definition draws (vals : Values) (c : Column) : bool :=
  is_autoincrement c && bool_decide (vals !! name c = None)
    && bool_decide (get_default c = None)
    && bool_decide (get_server_default c = None).

Definition draws_sequence (cols : list Column) (vals : Values) : bool :=
  existsb (draws vals) cols.

(** A sequence hands out no value beyond the range of its column. *)
Definition check_sequence (t : string) (cols : list Column) (vals : Values) (seq : Z)
  : Result () :=
  match find (λ c, draws vals c && negb (fits (type_ c) (VInt seq))) cols with
  | Some c => Raise (DataError t (name c))
  | None => Ok ()
  end.

Definition check_not_null (t : string) (cols : list Column) (r : Row) : Result () :=
  match find (λ c, negb (is_nullable c) && bool_decide (r !! name c = None)) cols with
  | Some c => Raise (IntegrityError NotNullViolation t (name c))
  | None => Ok ()
  end.

Definition check_unique (t : string) (cols : list Column) (others : list Row) (r : Row)
  : Result () :=
  match find (λ c, (is_unique c || is_primary_key c) &&
                   match r !! name c with
                   | Some v => existsb (holds (name c) v) others
                   | None => false
                   end) cols with
  | Some c => Raise (IntegrityError UniqueViolation t (name c))
  | None => Ok ()
  end.

Fixpoint check_foreign_keys (db : Database) (t : string) (cols : list Column) (r : Row)
  : Result () :=
  match cols with
  | [] => Ok ()
  | c :: cs =>
      match get_foreign_key c, r !! name c with
      | Some (t', k), Some v =>
          match db !! t' with
          | None => Raise (ProgrammingError t')
          | Some parent =>
              if existsb (holds k v) (rows parent)
              then check_foreign_keys db t cs r
              else Raise (IntegrityError ForeignKeyViolation t (name c))
          end
      | _, _ => check_foreign_keys db t cs r
      end
  end.

(** The checks of the store on a completed row, in the order in which a
    violation is reported. *)
Definition check_constraints (db : Database) (t : string) (cols : list Column)
    (others : list Row) (r : Row) : Result () :=
  check_not_null t cols r ;;
  check_unique t cols others r ;;
  check_foreign_keys db t cols r.

(** Some row of some table refers to value [v] of column [k] of table [t]. *)
Definition referenced (db : Database) (t k : string) (v : Value) : bool :=
  existsb (λ p : string * Table,
             existsb (λ c, bool_decide (get_foreign_key c = Some (t, k)) &&
                           existsb (holds (name c) v) (rows p.2)) (schema p.2))
          (map_to_list db).

(** A referenced key of a parent row may not change while a child row still
    points at it. *)
Definition check_referenced (db : Database) (t : string) (cols : list Column) (old new : Row)
  : Result () :=
  match find (λ c, match old !! name c with
                   | Some v => negb (holds (name c) v new) && referenced db t (name c) v
                   | None => false
                   end) cols with
  | Some c => Raise (IntegrityError ForeignKeyViolation t (name c))
  | None => Ok ()
  end.

(** The assignments of an [Update]: a column named in [sets] takes the given
    value ([None] for NULL); a column left out that declares [onupdate] takes
    the value of its callable, here the clock reading [now]. *)
Definition assign (now : Z) (sets : Values) (c : Column) (r : Row) : Row :=
  match sets !! name c with
  | Some (Some v) => <[name c := v]> r
  | Some None => delete (name c) r
  | None =>
      match get_onupdate c with
      | Some datetime_now => <[name c := VTime now]> r
      | None => r
      end
  end.

Definition apply_update (now : Z) (cols : list Column) (sets : Values) (r : Row) : Row :=
  foldr (assign now sets) r cols.

Inductive Statement :=
  | Insert (table : string) (values : Values)
  | Update (table : string) (id : Z) (sets : Values).

(** [INSERT INTO t].  The statement is refused before it is sent if its
    values are not well typed.  The store then draws the key from the
    sequence, if the statement leaves it out, completes the row with the
    other defaults, checks it against the declared constraints (NOT NULL,
    then UNIQUE and PRIMARY KEY, then FOREIGN KEY) and appends it.  No clock
    is read.  The result is the store as the statement leaves it in its
    transaction and the exception, if any: a rejected row is not stored but
    the value drawn for it stays drawn. *)
Definition insert_row (t : string) (vals : Values) (db : Database)
  : Database * option Exception :=
  match db !! t with
  | None => (db, Some (ProgrammingError t))
  | Some tb =>
      match (check_values t (schema tb) vals ;;
             check_sequence t (schema tb) vals (sequence tb)) with
      | Raise e => (db, Some e)
      | Ok () =>
          let r := fill (schema tb) (sequence tb) vals in
          let seq := if draws_sequence (schema tb) vals
                     then sequence tb + 1 else sequence tb in
          match check_constraints db t (schema tb) (rows tb) r with
          | Raise e => (<[t := mkTable (schema tb) (rows tb) seq]> db, Some e)
          | Ok () => (<[t := mkTable (schema tb) (rows tb ++ [r]) seq]> db, None)
          end
      end
  end.

(** The key of [WHERE id = k] is sent as a value of the type of [id]. *)
Definition check_where (t : string) (cols : list Column) (k : Z) : Result () :=
  match find (λ c, bool_decide (name c = "id")) cols with
  | None => Raise (ProgrammingError t)
  | Some c => if fits (type_ c) (VInt k) then Ok () else Raise (DataError t "id")
  end.

(** [UPDATE t SET ... WHERE id = k], issued when the clock reads [now]. *)
Definition update_row (now : Z) (t : string) (k : Z) (sets : Values) (db : Database)
  : Database * option Exception :=
  match db !! t with
  | None => (db, Some (ProgrammingError t))
  | Some tb =>
      match (check_values t (schema tb) sets ;; check_where t (schema tb) k) with
      | Raise e => (db, Some e)
      | Ok () =>
          match list_find (λ r, r !! "id" = Some (VInt k)) (rows tb) with
          | None => (db, None)
          | Some (i, r) =>
              let r' := apply_update now (schema tb) sets r in
              match (check_constraints db t (schema tb) (delete i (rows tb)) r' ;;
                     check_referenced db t (schema tb) r r') with
              | Raise e => (db, Some e)
              | Ok () =>
                  (<[t := mkTable (schema tb) (<[i := r']> (rows tb)) (sequence tb)]> db,
                   None)
              end
          end
      end
  end.

(** One statement against the store, executed when the clock reads [now]. *)
Definition execute (now : Z) (s : Statement) (db : Database)
  : Database * option Exception :=
  match s with
  | Insert t vals => insert_row t vals db
  | Update t k sets => update_row now t k sets db
  end.

(** [DROP TABLE t]: refused while another table of the store refers to
    [t].  A table that does not exist is skipped ([delete] of an absent key
    changes nothing); the store admits no reference to a table that does
    not exist. *)
Definition refers_to (t : string) (p : string * Table) : bool :=
  bool_decide (p.1 ≠ t) &&
  existsb (λ c, bool_decide (fst <$> get_foreign_key c = Some t)) (schema p.2).

Definition drop_table (t : string) (db : Database) : Result Database :=
  if existsb (refers_to t) (map_to_list db)
  then Raise (InternalError t)
  else Ok (delete t db).

(** [Base.metadata.drop_all]: the declared tables are dropped one by one,
    dependent tables first.  The order is the reverse of the order of
    creation, which for these six tables is the order of their declaration
    (Department is declared before the tables that refer to it). *)
Definition drop_all (md : list Model) (db : Database) : Result Database :=
  foldr (λ m acc, acc ≫= drop_table (tablename m)) (Ok db) md.

(** [Base.metadata.create_all]: each declared table that does not exist is
    created empty, with a new sequence at 1. *)
Definition create_all (md : list Model) (db : Database) : Database :=
  foldr (λ m acc, match acc !! tablename m with
                  | Some _ => acc
                  | None => <[tablename m := mkTable (columns m) [] 1]> acc
                  end) db md.

(** ** Queries *)

Definition table_rows (db : Database) (t : string) : list Row :=
  from_option rows [] (db !! t).

(** [SELECT ks FROM t]: the rows of [t] in insertion order, each reduced to
    the columns [ks]. *)
Definition select (db : Database) (t : string) (ks : list string)
  : list (list (option Value)) :=
  (λ r : Row, (λ k, r !! k) <$> ks) <$> table_rows db t.

(** [SELECT k FROM t]. *)
Definition column (db : Database) (t k : string) : list (option Value) :=
  (λ r : Row, r !! k) <$> table_rows db t.

(** The declarations table [t] was created from, and the next value of its
    sequence. *)
Definition table_schema (db : Database) (t : string) : option (list Column) :=
  schema <$> db !! t.

Definition next_id (db : Database) (t : string) : option Z :=
  sequence <$> db !! t.

(** ** Transactions *)

(** What a rollback leaves: the tables and rows of the store [db] the
    transaction started from; the sequences stay where the transaction left
    them in [d]. *)
Definition rollback (db d : Database) : Database :=
  map_imap (λ t tb, Some (mkTable (schema tb) (rows tb)
                            (from_option sequence (sequence tb) (d !! t)))) db.

(** A transaction of statements ([async with session.begin()], or the
    statements a session runs up to its [commit]): the body's work is
    committed when it ends normally and rolled back when an exception
    leaves it.  The result is the committed store and the exception, if
    any. *)
Definition transaction (body : Database → Database * option Exception) (db : Database)
  : Database * option Exception :=
  match body db with
  | (d, None) => (d, None)
  | (d, Some e) => (rollback db d, Some e)
  end.

(** [async with engine.begin()] around [drop_all] and [create_all]: the
    store undoes dropped and created tables, their sequences included, when
    an exception leaves the block. *)
Definition engine_begin (body : Database → Result Database) (db : Database)
  : Database * option Exception :=
  match body db with
  | Ok d => (d, None)
  | Raise e => (db, Some e)
  end.

(** ** The seed script *)

(** The keyword arguments of a constructor call, [Department(id=1, ...)]. *)
Definition kwargs (l : list (string * Value)) : Row := list_to_map l.

(** The dictionary of [insert(...).values({...})]; an entry whose value is
    [None] sets its column to NULL. *)
Definition values (l : list (string * option Value)) : Values := list_to_map l.

(** The unit of work of a session: the pending objects of one class are
    inserted in the order they were added, each with the attributes it was
    given. *)
Fixpoint flush (t : string) (objects : list Row) (db : Database)
  : Database * option Exception :=
  match objects with
  | [] => (db, None)
  | o :: os =>
      match insert_row t (Some <$> o) db with
      | (d, None) => flush t os d
      | (d, Some e) => (d, Some e)
      end
  end.

Definition python_course_text : string := "*Длительность:* 4️⃣ месяца
*Стоимость:* 150$ / за месяц 🤏
*Программа обучения:* 
    Месяц 1: *Английский + Математика + Linux*
    Месяц 2: *Знакомство с синтаксисом языка Python*
    Месяц 3: *Углубленное изучения языка + Базы Данных*
    Месяц 4: *Изучения фрэймворка Django*
    
*Дополнительная информация:*
    Во время изучения языка программирования(ЯП) Python вы также получаете:
    1. Изучение необходимых библиотек относящихся к ЯП Python 😱😱😱
    2. Изучение нескольких Баз Данных 🧐
    3. Возможность научиться создавать Telegram боты 🤖
    4. Изучить вёрстку на HTML+CSS 👩‍🎤🧑‍🎤
    5. Возможность работать на оплачиваемых проектах 🤑
    6. Участие в локальных Хакатонах 🏆
    7. Коворкинг и новые знакомства 🧍‍♀️🧍🐼🦉👽
    8. Многое многое другое... 🤤😍🤩

".

Definition sys_admin_course_text : string := "*Длительность:* 4️⃣ месяца
*Стоимость:* 140$ / за месяц 🤏
*Программа обучения:* 
    Месяц 1: *Английский + Математика + Linux*
    Месяц 2: *Знакомство с синтаксисом языка Python*
    Месяц 3: *Углубленное изучения языка + Базы Данных*
    Месяц 4: *Изучения фрэймворка Django*
    
*Дополнительная информация:*
    Во время изучения языка программирования(ЯП) Python вы также получаете:
    1. Изучение необходимых библиотек относящихся к ЯП Python 😱😱😱
    2. Изучение нескольких Баз Данных 🧐
    3. Возможность научиться создавать Telegram боты 🤖
    4. Изучить вёрстку на HTML+CSS 👩‍🎤🧑‍🎤
    5. Возможность работать на оплачиваемых проектах 🤑
    6. Участие в локальных Хакатонах 🏆
    7. Коворкинг и новые знакомства 🧍‍♀️🧍🐼🦉👽
    8. Многое многое другое... 🤤😍🤩

".

(** The points at which the script waits for the store, and at which the
    store may turn out to be unreachable. *)
Inductive Await :=
  | connection_run_sync
  | session_begin_exit
  | session_execute
  | session_commit.

#[global] Instance Await_eq_dec : EqDecision Await.
Proof. solve_decision. Defined.

(** The store answers the wait [a] unless [fault] names it; if it does not
    answer, nothing of what is awaited is done. *)
Definition answers (fault : option Await) (a : Await) : Result () :=
  if decide (fault = Some a) then Raise OperationalError else Ok ().

Definition await (fault : option Await) (a : Await)
    (work : Database → Database * option Exception) (db : Database)
  : Database * option Exception :=
  match answers fault a with
  | Raise e => (db, Some e)
  | Ok () => work db
  end.

(** [recreate_database], run in a process that loaded the module at [load],
    against the store [db]; [now] is the clock when [python_info] is
    executed and [fault] names the wait, if any, at which the store is
    unreachable.  The result is the committed store when the coroutine ends
    and the exception that left it, if any.

    The first block ([engine.begin]) drops and recreates the tables.  The
    inner block ([session.begin]) adds the four departments and commits on
    exit.  The two [insert(Course)] statements are then built, the second one
    under the name [sys_admin]; only [python_info] is executed, in a
    transaction of its own, which [session.commit] ends. *)
Definition recreate_database (load : ModuleLoad) (now : Z) (fault : option Await)
    (db : Database) : Database * option Exception :=
  match engine_begin (λ d, answers fault connection_run_sync ;;
                           d' ← drop_all (metadata load) d;
                           Ok (create_all (metadata load) d')) db
  with
  | (db, Some e) => (db, Some e)
  | (db, None) =>
      let python := kwargs [("id", VInt 1); ("department_name", VStr "Python")] in
      let sys_admin :=
        kwargs [("id", VInt 2); ("department_name", VStr "System Administrator")] in
      let javascript := kwargs [("id", VInt 3); ("department_name", VStr "Javascript")] in
      let java := kwargs [("id", VInt 4); ("department_name", VStr "Java")] in
      match transaction (await fault session_begin_exit
                           (flush (tablename (Department load))
                              [python; sys_admin; javascript; java])) db
      with
      | (db, Some e) => (db, Some e)
      | (db, None) =>
          let python_info :=
            Insert (tablename (Course load))
              (values [("department_info", Some (VStr python_course_text));
                       ("department_id", python !! "id")]) in
          let sys_admin :=
            Insert (tablename (Course load))
              (values [("department_info", Some (VStr sys_admin_course_text));
                       ("department_id", sys_admin !! "id")]) in
          transaction (λ d, match await fault session_execute (execute now python_info) d with
                            | (d', None) => await fault session_commit (λ d, (d, None)) d'
                            | (d', Some e) => (d', Some e)
                            end) db
      end
  end.


(** The committed store after the seed script's second block, and after the
    whole script, on an empty store. *)
Definition with_departments (load : ModuleLoad) : Database :=
  (recreate_database load 0 (Some session_execute) ∅).1.

Definition seeded (load : ModuleLoad) : Database :=
  (recreate_database load 0 None ∅).1.

(** The committed store when the script's last commit fails. *)
Definition commit_failed (load : ModuleLoad) : Database :=
  (recreate_database load 0 (Some session_commit) ∅).1.

#[global] Opaque seeded with_departments commit_failed.

(** ** Comparing stores up to their timestamps *)

Definition forget_row (r : Row) : Row := delete "created_at" (delete "updated_at" r).

Definition forget_server_default (c : Column) : Column :=
  mkColumn (name c) (type_ c)
    (List.filter (λ a, match a with server_default _ => false | _ => true end) (args c)).

(** The store without the values of [created_at] and [updated_at] and
    without the [server_default] literals of its declarations. *)
Definition forget_timestamps (db : Database) : Database :=
  (λ tb, mkTable (forget_server_default <$> schema tb) (forget_row <$> rows tb)
           (sequence tb)) <$> db.


(** The table after an accepted insertion of [vals]: the stored row is
    appended and the sequence advances if the key was drawn from it.  After
    an insertion that the store rejects only the sequence has moved. *)
Definition stored (tb : Table) (vals : Values) : Table :=
  mkTable (schema tb) (rows tb ++ [fill (schema tb) (sequence tb) vals])
    (if draws_sequence (schema tb) vals then sequence tb + 1 else sequence tb).

Definition drawn (tb : Table) (vals : Values) : Table :=
  mkTable (schema tb) (rows tb)
    (if draws_sequence (schema tb) vals then sequence tb + 1 else sequence tb).

(** The columns that refer to a department: the dependent table, its column
    and the column of Department it names. *)
Definition department_references : list (string * string * string) :=
  [ ("customer", "department_name", "department_name");
    ("course", "department_id", "id");
    ("vacancy", "department_id", "id");
    ("news", "department_id", "id") ].

(** The columns an insertion must give a value for: those declared NOT NULL
    that have no default of any kind. *)
Definition required (cols : list Column) : list string :=
  name <$> List.filter (λ c, negb (is_nullable c) &&
                             bool_decide (default_value 0 c = None)) cols.

(** The columns declared NOT NULL, and those declared nullable. *)
Definition not_null (cols : list Column) : list string :=
  name <$> List.filter (λ c, negb (is_nullable c)) cols.

Definition nullable_columns (cols : list Column) : list string :=
  name <$> List.filter is_nullable cols.

(** The [id] of the row an insertion stores: the one it gives, or the next
    value [seq] of the sequence. *)
Definition row_id (seq : Z) (vals : Values) : option Value :=
  from_option id (Some (VInt seq)) (vals !! "id").

(** The value an insertion gives for a column, NULL if it gives none. *)
Definition given (vals : Values) (k : string) : option Value :=
  from_option id None (vals !! k).

(** The insertions that reach the checks on keys and references: the values
    are well typed, every required column is given, no NOT NULL column is
    set to NULL, and the sequence has a value left in the range of the key
    if the key is drawn from it. *)
Definition admissible (cols : list Column) (seq : Z) (vals : Values) : Prop :=
  well_typed cols vals ∧
  Forall (λ k, is_Some (vals !! k)) (required cols) ∧
  Forall (λ k, vals !! k ≠ Some None) (not_null cols) ∧
  Forall (λ c, draws vals c = true → fits (type_ c) (VInt seq) = true) cols.

#[global] Instance admissible_dec cols seq vals : Decision (admissible cols seq vals).
Proof. unfold admissible. apply _. Defined.

(** The exceptions of an insertion that is not admissible. *)
Definition refused_early (t : string) (e : Exception) : Prop :=
  e = CompileError t ∨ (∃ k, e = DataError t k) ∨
  ∃ k, e = IntegrityError NotNullViolation t k.

(** ** The fields that the specification lists as required

    The fields of the dependent entities that the data model of the
    specification lists without calling them optional, the department
    reference apart. *)
Definition spec_required_fields : list (string * string) :=
  [ ("customer", "chat_id"); ("customer", "first_name"); ("customer", "time");
    ("course", "department_info");
    ("vacancy", "vacancy_type"); ("vacancy", "vacancy_label"); ("vacancy", "vacancy_info");
    ("news", "news_source"); ("news", "news_label") ].

(** Whether column [f.2] of table [f.1] is declared, and declared
    nullable. *)
Definition declared_nullable (md : list Model) (f : string * string) : option bool :=
  m ← find (λ m, bool_decide (tablename m = f.1)) md;
  c ← find (λ c, bool_decide (name c = f.2)) (columns m);
  Some (is_nullable c).

(** ** Statements that are put to the test below *)

(** Two runs of the seed script in succession (each run is a process of its
    own and loads the module anew) leave the store that one run leaves. *)
Definition reset_is_idempotent : Prop :=
  ∀ load1 now1 load2 now2 db,
    (recreate_database load2 now2 None (recreate_database load1 now1 None db).1).1 =
    (recreate_database load1 now1 None db).1.



(** Inserting a dependent row whose department reference names no
    Department fails with a foreign-key error. *)
Definition dangling_reference_is_foreign_key_error : Prop :=
  ∀ load m cname k now vals v db,
    m ∈ metadata load →
    (tablename m, cname, k) ∈ department_references →
    table_schema db (tablename m) = Some (columns m) →
    table_schema db "department" = Some (columns (Department load)) →
    vals !! cname = Some (Some v) →
    Some v ∉ column db "department" k →
    (transaction (execute now (Insert (tablename m) vals)) db).2 =
      Some (IntegrityError ForeignKeyViolation (tablename m) cname).

(** The department reference of each dependent table is nullable, and every
    other field that the specification lists as required is declared NOT
    NULL. *)
Definition only_the_department_is_optional : Prop :=
  ∀ load,
    Forall (λ ref : string * string * string,
              declared_nullable (metadata load) ref.1 = Some true)
           department_references ∧
    Forall (λ f, declared_nullable (metadata load) f = Some false) spec_required_fields.

(** An accepted update of a row, which assigns to some column but to none of
    [id], [created_at] and [updated_at], leaves the row with an [updated_at]
    strictly later than its [created_at] and than its former
    [updated_at]. *)
Definition updated_at_always_later : Prop :=
  ∀ load m now k sets db c u,
    m ∈ metadata load →
    table_schema db (tablename m) = Some (columns m) →
    NoDup (column db (tablename m) "id") →
    [Some (VInt k); Some (VTime c); Some (VTime u)] ∈
      select db (tablename m) ["id"; "created_at"; "updated_at"] →
    sets ≠ ∅ →
    sets !! "id" = None → sets !! "created_at" = None → sets !! "updated_at" = None →
    (transaction (execute now (Update (tablename m) k sets)) db).2 = None →
    ∃ u', [Some (VInt k); Some (VTime c); Some (VTime u')] ∈
            select (transaction (execute now (Update (tablename m) k sets)) db).1
              (tablename m) ["id"; "created_at"; "updated_at"] ∧
          c < u' ∧ u < u'.


(** ** Referential integrity *)

(** Every table of the schema is in the store as it was declared. *)
Definition schema_ok (load : ModuleLoad) (db : Database) : Prop :=
  Forall (λ m, table_schema db (tablename m) = Some (columns m)) (metadata load).

(** Every department reference held by a row names the key of a Department
    row. *)
Definition references_resolve (db : Database) : Prop :=
  Forall (λ ref : string * string * string,
            Forall (λ v : option Value,
                      v = None ∨ v ∈ column db "department" ref.2)
                   (column db ref.1.1 ref.1.2))
         department_references.

#[global] Instance schema_ok_dec load db : Decision (schema_ok load db).
Proof. unfold schema_ok. apply _. Defined.

#[global] Instance references_resolve_dec db : Decision (references_resolve db).
Proof. unfold references_resolve. apply _. Defined.

(** ** Relationships

    [relationship("Department", back_populates=...)] on a dependent class and
    its mirror on [Department].  The join is the one the foreign key of the
    dependent table declares: [department] of a row is the Department row
    whose key equals the row's reference ([None] when the reference is NULL
    or names no row); the collection on a Department holds the dependent rows
    whose reference equals its key. *)

(** The referring column of [cols] and the key of [t] it names. *)
Definition foreign_key_to (cols : list Column) (t : string) : option (string * string) :=
  find (λ c, bool_decide (fst <$> get_foreign_key c = Some t)) cols
    ≫= λ c, pair (name c) <$> (snd <$> get_foreign_key c).

Definition many_to_one (db : Database) (child : Model) (r : Row) : option Row :=
  foreign_key_to (columns child) "department" ≫= λ fk,
  r !! fk.1 ≫= λ v,
  find (holds fk.2 v) (table_rows db "department").

Definition one_to_many (db : Database) (child : Model) (d : Row) : list Row :=
  match foreign_key_to (columns child) "department" with
  | Some fk =>
      match d !! fk.2 with
      | Some v => List.filter (holds fk.1 v) (table_rows db (tablename child))
      | None => []
      end
  | None => []
  end.

(** ** [__repr__]

    What [repr] of a mapped object gives, for the classes whose [__repr__]
    formats strings and the related Department. *)
Inductive PyException := AttributeError | TypeError.

Inductive Outcome :=
  | Returns (s : string)
  | Raises (e : PyException).

Section Repr.
(** [str] of a [datetime], left to the library. *)
Variable isoformat : Z → string.

(** [str(x)] of an attribute value, as an f-string formats it. *)
Definition py_str (v : option Value) : string :=
  match v with
  | None => "None"
  | Some (VStr s) => s
  | Some (VInt n) => pretty n
  | Some (VTime t) => isoformat t
  end.

(** [Department.__repr__]: [return self.department_name]; [repr] of an
    object whose [__repr__] returns no string raises [TypeError]. *)
Definition Department_repr (d : Row) : Outcome :=
  match d !! "department_name" with
  | Some (VStr s) => Returns s
  | _ => Raises TypeError
  end.

(** [Customer.__repr__]:
    [f'{self.department_name} | {self.first_name} | {self.last_name}']. *)
Definition Customer_repr (r : Row) : Outcome :=
  Returns (py_str (r !! "department_name") +:+ " | " +:+
           py_str (r !! "first_name") +:+ " | " +:+ py_str (r !! "last_name")).

(** [Course.__repr__]: [f'{self.department}']. *)
Definition Course_repr (load : ModuleLoad) (db : Database) (r : Row) : Outcome :=
  match many_to_one db (Course load) r with
  | None => Returns "None"
  | Some d => Department_repr d
  end.

(** [Vacancy.__repr__]:
    [f'{self.department.department_name} - {self.vacancy_label}']; the
    attribute of a missing department raises [AttributeError]. *)
Definition Vacancy_repr (load : ModuleLoad) (db : Database) (r : Row) : Outcome :=
  match many_to_one db (Vacancy load) r with
  | None => Raises AttributeError
  | Some d =>
      Returns (py_str (d !! "department_name") +:+ " - " +:+
               py_str (r !! "vacancy_label"))
  end.

(** [News.__repr__]:
    [f'{self.department.department_name} - {self.news_label}']. *)
Definition News_repr (load : ModuleLoad) (db : Database) (r : Row) : Outcome :=
  match many_to_one db (News load) r with
  | None => Raises AttributeError
  | Some d =>
      Returns (py_str (d !! "department_name") +:+ " - " +:+
               py_str (r !! "news_label"))
  end.
End Repr.

(** ** A small store

    The seeded store of a process that loaded the module when the clock read
    10 and 11, to which a Vacancy without department and a News item of
    department 1 are then added. *)
Definition example_store : Database :=
  foldl (λ db s, (transaction (execute 20 s) db).1) (seeded (mkLoad 10 11))
    [ Insert "vacancy"
        (values [("vacancy_type", Some (VInt 1));
                 ("vacancy_label", Some (VStr "Backend developer"));
                 ("vacancy_info", Some (VStr "Remote"))]);
      Insert "news"
        (values [("department_id", Some (VInt 1)); ("news_source", Some (VStr "habr.com"));
                 ("news_label", Some (VStr "Python 3.10"))]) ].

#[global] Opaque example_store.

(** A store that an earlier process, which loaded the module when the clock
    read 1 and 2, has seeded, and that also holds a table of another
    tool. *)
Definition other_table : Table :=
  mkTable [mkColumn "version_num" sa.String [nullable false; primary_key true]]
    [ {["version_num" := VStr "0001"]} ] 1.

Definition old_store : Database :=
  <["alembic_version" := other_table]> (seeded (mkLoad 1 2)).

(** The same seeded store with a table of another application that refers
    to Department. *)
Definition referring_table : Table :=
  mkTable [mkColumn "id" sa.Integer [primary_key true];
           mkColumn "department_id" sa.Integer [ForeignKey "department" "id"]]
    [ {["id" := VInt 1; "department_id" := VInt 2]} ] 2.

Definition referred_store : Database :=
  <["orders" := referring_table]> (seeded (mkLoad 1 2)).

#[global] Opaque old_store referred_store.

(** The first row of a table (the empty row if there is none). *)
Definition first_row (db : Database) (t : string) : Row :=
  from_option id ∅ (head (table_rows db t)).


(** * Properties of the store *)

Section Store.
Implicit Types (cols : list Column) (r o : Row) (db : Database).

Lemma lookup_fill_None cols seq (vals : Values) k :
  k ∉ name <$> cols → fill cols seq vals !! k = None.
Proof.
  induction cols as [|c cs IH]; intros Hk; simpl; [apply lookup_empty|].
  rewrite fmap_cons in Hk. apply not_elem_of_cons in Hk as [Hne Hk].
  destruct (vals !! name c) as [[v|]|]; [| |destruct (default_value seq c)];
    rewrite ?lookup_insert_ne; auto.
Qed.

(** A stored row holds, in each declared column, the given value (or NULL)
    or else the column's default. *)
Lemma lookup_fill cols seq (vals : Values) c :
  NoDup (name <$> cols) → c ∈ cols →
  fill cols seq vals !! name c =
    match vals !! name c with Some given => given | None => default_value seq c end.
Proof.
  induction cols as [|c0 cs IH]; intros Hnd Hin; [by apply elem_of_nil in Hin|].
  rewrite fmap_cons in Hnd. apply NoDup_cons in Hnd as [Hfresh Hnd].
  apply elem_of_cons in Hin as [->|Hin]; simpl.
  - destruct (vals !! name c0) as [[v|]|] eqn:E;
      [by rewrite lookup_insert_eq|by apply lookup_fill_None|].
    destruct (default_value seq c0) eqn:D; [by rewrite lookup_insert_eq|].
    by apply lookup_fill_None.
  - assert (name c0 ≠ name c) as Hne.
    { intros Heq. apply Hfresh. rewrite Heq. by apply list_elem_of_fmap_2. }
    destruct (vals !! name c0) as [[v|]|]; [| |destruct (default_value seq c0)];
      rewrite ?lookup_insert_ne; auto.
Qed.

(** The values a statement is sent with. *)
Lemma check_values_Ok t cols (vals : Values) :
  check_values t cols vals = Ok () ↔ well_typed cols vals.
Proof.
  unfold check_values, well_typed.
  destruct (unknown_key cols vals); [by split; [|intros [? _]]|].
  destruct (ill_typed cols vals); [by split; [|intros [_ ?]]|]. done.
Qed.

Lemma check_values_Raise t cols (vals : Values) e :
  check_values t cols vals = Raise e →
  ¬ well_typed cols vals ∧ (e = CompileError t ∨ ∃ k, e = DataError t k).
Proof.
  unfold check_values, well_typed.
  destruct (unknown_key cols vals);
    [intros [= <-]; split; [by intros [? _]|by left]|].
  destruct (ill_typed cols vals); [|done].
  intros [= <-]. split; [by intros [_ ?]|right; eauto].
Qed.

Lemma well_typed_known cols (vals : Values) k :
  well_typed cols vals → is_Some (vals !! k) → k ∈ name <$> cols.
Proof.
  intros [Hk _] [v Hv]. unfold unknown_key in Hk.
  destruct (decide (k ∈ name <$> cols)) as [|Hn]; [done|]. exfalso.
  assert (In k (fst <$> map_to_list vals)) as Hin.
  { apply list_elem_of_In, list_elem_of_fmap. exists (k, v).
    split; [done|]. by apply elem_of_map_to_list. }
  pose proof (find_none _ _ Hk k Hin) as Hf. cbn beta in Hf.
  by rewrite bool_decide_eq_true_2 in Hf.
Qed.

Lemma well_typed_fits cols (vals : Values) c v :
  well_typed cols vals → c ∈ cols → vals !! name c = Some (Some v) →
  fits (type_ c) v = true.
Proof.
  intros [_ Ht] Hc Hv. unfold ill_typed in Ht.
  destruct (find _ cols) eqn:E; [done|].
  apply list_elem_of_In in Hc. pose proof (find_none _ _ E c Hc) as Hf.
  cbn beta in Hf. rewrite Hv in Hf. by apply negb_false_iff in Hf.
Qed.

Lemma check_sequence_Ok t cols (vals : Values) seq :
  check_sequence t cols vals seq = Ok () ↔
  ∀ c, c ∈ cols → draws vals c = true → fits (type_ c) (VInt seq) = true.
Proof.
  unfold check_sequence. split.
  - destruct (find _ cols) eqn:E; [done|]. intros _ c Hc Hd.
    apply list_elem_of_In in Hc. pose proof (find_none _ _ E c Hc) as Hf.
    cbn beta in Hf. rewrite Hd in Hf. by apply negb_false_iff in Hf.
  - intros H. destruct (find _ cols) as [c|] eqn:E; [|done].
    apply find_some in E as [Hc Hf]. apply list_elem_of_In in Hc.
    apply andb_true_iff in Hf as [Hd Hr]. rewrite (H c Hc Hd) in Hr. done.
Qed.

Lemma check_sequence_Raise t cols (vals : Values) seq e :
  check_sequence t cols vals seq = Raise e →
  ∃ c, c ∈ cols ∧ draws vals c = true ∧ fits (type_ c) (VInt seq) = false ∧
       e = DataError t (name c).
Proof.
  unfold check_sequence. destruct (find _ cols) as [c|] eqn:E; [|done].
  intros [= <-]. apply find_some in E as [Hc Hf]. apply list_elem_of_In in Hc.
  apply andb_true_iff in Hf as [Hd Hr]. apply negb_true_iff in Hr. eauto 10.
Qed.

Lemma check_not_null_Ok t cols r :
  check_not_null t cols r = Ok () ↔
  ∀ c, c ∈ cols → is_nullable c = false → is_Some (r !! name c).
Proof.
  unfold check_not_null. split.
  - destruct (find _ cols) eqn:E; [done|]. intros _ c Hc Hn.
    apply list_elem_of_In in Hc. pose proof (find_none _ _ E c Hc) as Hf.
    simpl in Hf. rewrite Hn in Hf. simpl in Hf.
    apply bool_decide_eq_false in Hf. by apply not_eq_None_Some.
  - intros H. destruct (find _ cols) as [c|] eqn:E; [|done].
    apply find_some in E as [Hc Hf]. apply list_elem_of_In in Hc.
    apply andb_true_iff in Hf as [Hn Hr].
    apply negb_true_iff in Hn. apply bool_decide_eq_true in Hr.
    destruct (H c Hc Hn) as [v Hv]. congruence.
Qed.

Lemma check_not_null_Raise t cols r e :
  check_not_null t cols r = Raise e →
  ∃ c, c ∈ cols ∧ is_nullable c = false ∧ r !! name c = None ∧
       e = IntegrityError NotNullViolation t (name c).
Proof.
  unfold check_not_null. destruct (find _ cols) as [c|] eqn:E; [|done].
  intros [= <-]. apply find_some in E as [Hc Hf]. apply list_elem_of_In in Hc.
  apply andb_true_iff in Hf as [Hn Hr].
  apply negb_true_iff in Hn. apply bool_decide_eq_true in Hr. eauto 10.
Qed.

Lemma existsb_holds k v (l : list Row) :
  existsb (holds k v) l = true ↔ ∃ o, o ∈ l ∧ o !! k = Some v.
Proof.
  rewrite existsb_exists. unfold holds. split.
  - intros (o & Ho & Hv). exists o. rewrite list_elem_of_In.
    by apply bool_decide_eq_true in Hv.
  - intros (o & Ho & Hv). exists o. rewrite <- list_elem_of_In.
    by rewrite bool_decide_eq_true.
Qed.

Lemma check_unique_Ok t cols (others : list Row) r :
  check_unique t cols others r = Ok () ↔
  ∀ c v o, c ∈ cols → is_unique c || is_primary_key c = true →
           r !! name c = Some v → o ∈ others → o !! name c ≠ Some v.
Proof.
  unfold check_unique. split.
  - destruct (find _ cols) eqn:E; [done|]. intros _ c v o Hc Hu Hv Ho Hov.
    apply list_elem_of_In in Hc. pose proof (find_none _ _ E c Hc) as Hf.
    simpl in Hf. rewrite Hu, Hv in Hf. simpl in Hf.
    assert (existsb (holds (name c) v) others = true) as Hex
      by (apply existsb_holds; eauto).
    congruence.
  - intros H. destruct (find _ cols) as [c|] eqn:E; [|done].
    apply find_some in E as [Hc Hf]. apply list_elem_of_In in Hc.
    apply andb_true_iff in Hf as [Hu Hr].
    destruct (r !! name c) as [v|] eqn:Hv; [|done].
    apply existsb_holds in Hr as (o & Ho & Hov).
    by destruct (H c v o Hc Hu Hv Ho).
Qed.


Lemma check_foreign_keys_Ok db t cols r :
  check_foreign_keys db t cols r = Ok () ↔
  ∀ c t' k v, c ∈ cols → get_foreign_key c = Some (t', k) → r !! name c = Some v →
              ∃ parent p, db !! t' = Some parent ∧ p ∈ rows parent ∧ p !! k = Some v.
Proof.
  induction cols as [|c0 cs IH]; simpl.
  - split; [|done]. intros _ c t' k v Hc. by apply elem_of_nil in Hc.
  - destruct (get_foreign_key c0) as [[t0 k0]|] eqn:Hfk.
    + destruct (r !! name c0) as [v0|] eqn:Hv0.
      * destruct (db !! t0) as [parent|] eqn:Ht0.
        -- destruct (existsb (holds k0 v0) (rows parent)) eqn:Hex.
           ++ rewrite IH. split.
              ** intros H c t' k v Hc Hfk' Hv.
                 apply elem_of_cons in Hc as [->|Hc]; [|by eauto].
                 rewrite Hfk in Hfk'. injection Hfk' as <- <-.
                 rewrite Hv0 in Hv. injection Hv as <-.
                 apply existsb_holds in Hex as (p & Hp & Hpv). eauto.
              ** intros H c t' k v Hc. apply H. by apply elem_of_cons; right.
           ++ split; [done|]. intros H.
              destruct (H c0 t0 k0 v0) as (parent' & p & Hp' & Hp & Hpv); auto.
              { by apply elem_of_cons; left. }
              rewrite Ht0 in Hp'. injection Hp' as <-.
              assert (existsb (holds k0 v0) (rows parent) = true)
                by (apply existsb_holds; eauto).
              congruence.
        -- split; [done|]. intros H.
           destruct (H c0 t0 k0 v0) as (parent' & p & Hp' & _); auto.
           { by apply elem_of_cons; left. }
           congruence.
      * rewrite IH. split.
        -- intros H c t' k v Hc Hfk' Hv.
           apply elem_of_cons in Hc as [->|Hc]; [congruence|by eauto].
        -- intros H c t' k v Hc. apply H. by apply elem_of_cons; right.
    + assert (check_foreign_keys db t cs r = Ok () ↔
              ∀ c t' k v, c ∈ c0 :: cs → get_foreign_key c = Some (t', k) →
                r !! name c = Some v →
                ∃ parent p, db !! t' = Some parent ∧ p ∈ rows parent ∧ p !! k = Some v)
        as Hgoal.
      { rewrite IH. split.
        - intros H c t' k v Hc Hfk' Hv.
          apply elem_of_cons in Hc as [->|Hc]; [congruence|by eauto].
        - intros H c t' k v Hc. apply H. by apply elem_of_cons; right. }
      by destruct (r !! name c0).
Qed.

Lemma check_foreign_keys_Raise db t cols r e :
  check_foreign_keys db t cols r = Raise e →
  ∃ c t' k v, c ∈ cols ∧ get_foreign_key c = Some (t', k) ∧ r !! name c = Some v ∧
    (db !! t' = None ∧ e = ProgrammingError t' ∨
     e = IntegrityError ForeignKeyViolation t (name c)).
Proof.
  induction cols as [|c0 cs IH]; simpl; [done|]. intros H.
  assert (check_foreign_keys db t cs r = Raise e →
          ∃ c t' k v, c ∈ c0 :: cs ∧ get_foreign_key c = Some (t', k) ∧
            r !! name c = Some v ∧
            (db !! t' = None ∧ e = ProgrammingError t' ∨
             e = IntegrityError ForeignKeyViolation t (name c))) as Htail.
  { intros H'. destruct (IH H') as (c & t' & k & v & Hc & Hrest).
    exists c, t', k, v. split; [by apply elem_of_cons; right|done]. }
  destruct (get_foreign_key c0) as [[t0 k0]|] eqn:Hfk; [|by destruct (r !! name c0); auto].
  destruct (r !! name c0) as [v0|] eqn:Hv0; [|by auto].
  destruct (db !! t0) as [parent|] eqn:Ht0.
  - destruct (existsb (holds k0 v0) (rows parent)); [by auto|].
    injection H as <-. exists c0, t0, k0, v0.
    split; [by apply elem_of_cons; left|]. auto.
  - injection H as <-. exists c0, t0, k0, v0.
    split; [by apply elem_of_cons; left|]. auto.
Qed.
End Store.


(** ** Dropping and creating the declared tables *)

Section DropCreate.
Implicit Types (md : list Model) (db : Database).

Lemma drop_table_Ok t db d :
  drop_table t db = Ok d ↔
  d = delete t db ∧
  ∀ t' tb, db !! t' = Some tb → refers_to t (t', tb) = false.
Proof.
  unfold drop_table. destruct (existsb _ _) eqn:E.
  - split; [done|]. intros [_ H]. apply existsb_exists in E as ([t' tb] & Hin & Hr).
    apply list_elem_of_In, elem_of_map_to_list in Hin. by rewrite (H _ _ Hin) in Hr.
  - split; [intros [= <-]|by intros [-> _]]. split; [done|]. intros t' tb Htb.
    destruct (refers_to t (t', tb)) eqn:Hr; [|done].
    assert (existsb (refers_to t) (map_to_list db) = true) as Hex; [|congruence].
    apply existsb_exists. exists (t', tb).
    split; [by apply list_elem_of_In, elem_of_map_to_list|done].
Qed.

Lemma drop_all_cons m md db :
  drop_all (m :: md) db = drop_all md db ≫= drop_table (tablename m).
Proof. reflexivity. Qed.

Lemma drop_all_Ok_elim md db d :
  drop_all md db = Ok d →
  (∀ k, d !! k = if decide (k ∈ tablename <$> md) then None else db !! k) ∧
  (∀ i m t' tb, md !! i = Some m → db !! t' = Some tb →
     t' ∉ tablename <$> drop (S i) md → refers_to (tablename m) (t', tb) = false).
Proof.
  revert d. induction md as [|m ms IH]; intros d.
  - intros [= <-]. split; [|by intros i m t' tb ?].
    intros k. case_decide as H; [by apply elem_of_nil in H|done].
  - rewrite drop_all_cons. destruct (drop_all ms db) as [d1|e]; [|done].
    destruct (IH d1 eq_refl) as [Hd1 Hms].
    change (Ok d1 ≫= drop_table (tablename m)) with (drop_table (tablename m) d1).
    rewrite drop_table_Ok. intros [-> Hm]. split.
    + intros k. rewrite fmap_cons, lookup_delete, Hd1.
      destruct (decide (tablename m = k)) as [Heq|Hne];
        destruct (decide (k ∈ tablename <$> ms)) as [Hin|Hnin];
        destruct (decide (k ∈ tablename m :: (tablename <$> ms))) as [H|H];
        try done; exfalso; set_solver.
    + intros [|i] m' t' tb Hi Htb Hnot.
      * injection Hi as <-. cbn [drop] in Hnot. apply Hm.
        by rewrite Hd1, decide_False.
      * by apply (Hms i).
Qed.

Lemma drop_all_Ok_intro md db :
  (∀ i m t' tb, md !! i = Some m → db !! t' = Some tb →
     t' ∉ tablename <$> drop (S i) md → refers_to (tablename m) (t', tb) = false) →
  ∃ d, drop_all md db = Ok d.
Proof.
  induction md as [|m ms IH]; intros Hcond; [by eexists|].
  destruct IH as [d1 Hd1]; [intros i m' t' tb Hi; by apply (Hcond (S i))|].
  rewrite drop_all_cons, Hd1.
  change (Ok d1 ≫= drop_table (tablename m)) with (drop_table (tablename m) d1).
  eexists. apply drop_table_Ok. split; [done|]. intros t' tb Htb.
  rewrite (proj1 (drop_all_Ok_elim _ _ _ Hd1)) in Htb.
  destruct (decide (t' ∈ tablename <$> ms)) as [|Hnot]; [done|].
  by apply (Hcond 0%nat m t' tb).
Qed.

Lemma drop_all_Raise md db e :
  drop_all md db = Raise e → ∃ t, t ∈ tablename <$> md ∧ e = InternalError t.
Proof.
  induction md as [|m ms IH]; [done|]. rewrite drop_all_cons.
  destruct (drop_all ms db) as [d1|e'] eqn:E1.
  - change (Ok d1 ≫= drop_table (tablename m)) with (drop_table (tablename m) d1).
    unfold drop_table. destruct (existsb _ _); [|done]. intros [= <-].
    exists (tablename m). split; [|done]. rewrite fmap_cons. by left.
  - intros [= <-]. destruct (IH eq_refl) as (t & Ht & ->).
    exists t. split; [|done]. rewrite fmap_cons. by right.
Qed.

(** Whether the tables can be dropped depends on their names only. *)
Lemma drop_all_names md md' db :
  tablename <$> md = tablename <$> md' → drop_all md db = drop_all md' db.
Proof.
  revert md'. induction md as [|m ms IH]; intros [|m' ms'] Heq; try done.
  rewrite !fmap_cons in Heq. injection Heq as Hm Hms.
  rewrite !drop_all_cons, Hm. by rewrite (IH ms').
Qed.

Lemma lookup_create_all md db k :
  create_all md db !! k =
    match db !! k with Some tb => Some tb | None => create_all md ∅ !! k end.
Proof.
  revert k. induction md as [|m ms IH]; intros k; simpl.
  - rewrite lookup_empty. by destruct (db !! k).
  - pose proof (IH (tablename m)) as Hm. pose proof (IH k) as Hk.
    destruct (db !! k) as [tb|] eqn:Hdb.
    + destruct (create_all ms db !! tablename m) eqn:E; [done|].
      rewrite lookup_insert_ne; [done|]. congruence.
    + destruct (decide (tablename m = k)) as [<-|Hne].
      * rewrite Hdb in Hm. rewrite Hm.
        destruct (create_all ms ∅ !! tablename m) eqn:E; [congruence|].
        by rewrite !lookup_insert_eq.
      * assert (∀ d : Database,
                  match d !! tablename m with
                  | Some _ => d
                  | None => <[tablename m := mkTable (columns m) [] 1]> d
                  end !! k = d !! k) as Hsame.
        { intros d. destruct (d !! tablename m); [done|].
          by rewrite lookup_insert_ne. }
        by rewrite !Hsame.
Qed.

Lemma lookup_create_all_empty md k :
  k ∈ tablename <$> md ↔ is_Some (create_all md ∅ !! k).
Proof.
  induction md as [|m ms IH]; simpl.
  - rewrite lookup_empty. split; [by intros ?%elem_of_nil|by intros [? ?]].
  - rewrite elem_of_cons, IH.
    destruct (create_all ms ∅ !! tablename m) eqn:E.
    + split; [|by auto]. intros [->|?]; [by eexists|done].
    + rewrite lookup_insert. destruct (decide (tablename m = k)) as [<-|Hne].
      * split; [by eexists|by left].
      * split; [by intros [?|?]|by right].
Qed.

(** Dropping and recreating the declared tables replaces them by empty
    ones and leaves every other table of the store alone. *)
Lemma create_all_drop_all md db d :
  drop_all md db = Ok d →
  create_all md d = create_all md ∅ ∪ db.
Proof.
  intros [Hd _]%drop_all_Ok_elim.
  apply map_eq. intros k. rewrite lookup_create_all, Hd.
  destruct (decide (k ∈ tablename <$> md)) as [Hin|Hnin].
  - apply lookup_create_all_empty in Hin as [tb Htb]. rewrite Htb.
    symmetry. by apply lookup_union_Some_l.
  - assert (create_all md ∅ !! k = None) as Hnone.
    { apply eq_None_not_Some. by rewrite <- lookup_create_all_empty. }
    rewrite lookup_union_r by done. rewrite Hnone. by destruct (db !! k).
Qed.
End DropCreate.

(** ** Rolling back *)

Section Rollback.
Implicit Types (db d rest : Database).

Lemma lookup_rollback db d k :
  rollback db d !! k =
    (λ tb, mkTable (schema tb) (rows tb) (from_option sequence (sequence tb) (d !! k)))
      <$> db !! k.
Proof. unfold rollback. rewrite map_lookup_imap. by destruct (db !! k). Qed.

(** Rolling back a transaction that drew from no sequence restores the
    store. *)
Lemma rollback_same db : rollback db db = db.
Proof.
  apply map_eq. intros k. rewrite lookup_rollback.
  by destruct (db !! k) as [[]|].
Qed.

Lemma rollback_insert db t tb tb' :
  db !! t = Some tb →
  rollback db (<[t := tb']> db) = <[t := mkTable (schema tb) (rows tb) (sequence tb')]> db.
Proof.
  intros Ht. apply map_eq. intros k. rewrite lookup_rollback.
  destruct (decide (t = k)) as [<-|Hne].
  - by rewrite !lookup_insert_eq, Ht.
  - rewrite !lookup_insert_ne by done. by destruct (db !! k) as [[]|].
Qed.

Lemma rollback_union db d rest :
  (∀ k, is_Some (db !! k) ↔ is_Some (d !! k)) →
  rollback (db ∪ rest) (d ∪ rest) = rollback db d ∪ rest.
Proof.
  intros Hdom. apply map_eq. intros k.
  rewrite lookup_rollback, !lookup_union, lookup_rollback.
  destruct (db !! k) as [tb|] eqn:Hdb.
  - destruct (proj1 (Hdom k)) as [tb' Hd]; [by eexists|]. rewrite Hd.
    cbn. by rewrite !union_Some_l.
  - destruct (d !! k) as [tb'|] eqn:Hd.
    { destruct (proj2 (Hdom k)) as [? ?]; [by eexists|]. congruence. }
    cbn. rewrite !(left_id_L None union). by destruct (rest !! k) as [[]|].
Qed.

Lemma table_rows_rollback db d t : table_rows (rollback db d) t = table_rows db t.
Proof. unfold table_rows. rewrite lookup_rollback. by destruct (db !! t). Qed.

Lemma table_schema_rollback db d t : table_schema (rollback db d) t = table_schema db t.
Proof. unfold table_schema. rewrite lookup_rollback. by destruct (db !! t). Qed.
End Rollback.

(** ** Statements touch only the tables they name *)

Section Frame.
Implicit Types (db rest : Database).

Lemma check_foreign_keys_union db rest t cols r :
  check_foreign_keys db t cols r = Ok () →
  check_foreign_keys (db ∪ rest) t cols r = Ok ().
Proof.
  rewrite !check_foreign_keys_Ok. intros H c t' k v Hc Hfk Hv.
  destruct (H c t' k v Hc Hfk Hv) as (parent & p & Hparent & Hp).
  exists parent, p. split; [by apply lookup_union_Some_l|done].
Qed.

(** An accepted insertion is accepted, with the same effect, whatever
    other tables the store holds. *)
Lemma insert_row_union db rest t vals db' :
  insert_row t vals db = (db', None) →
  insert_row t vals (db ∪ rest) = (db' ∪ rest, None).
Proof.
  unfold insert_row. destruct (db !! t) as [tb|] eqn:Ht; [|done].
  rewrite (lookup_union_Some_l _ _ _ _ Ht).
  destruct (check_values _ _ _ ;; check_sequence _ _ _ _) as [[]|]; [|done].
  unfold check_constraints.
  destruct (check_not_null _ _ _) as [[]|]; [simpl|done].
  destruct (check_unique _ _ _ _) as [[]|]; [simpl|done].
  destruct (check_foreign_keys db _ _ _) as [[]|] eqn:Hfk; [simpl|done].
  rewrite (check_foreign_keys_union _ rest _ _ _ Hfk).
  intros [= <-]. by rewrite insert_union_l.
Qed.

Lemma flush_union db rest t objects db' :
  flush t objects db = (db', None) →
  flush t objects (db ∪ rest) = (db' ∪ rest, None).
Proof.
  revert db. induction objects as [|o os IH]; intros db; simpl.
  - by intros [= <-].
  - destruct (insert_row t (Some <$> o) db) as [db1 [e|]] eqn:E; [done|].
    rewrite (insert_row_union _ rest _ _ _ E). apply IH.
Qed.

(** A statement creates and drops no table. *)
Lemma insert_row_dom t vals db :
  ∀ k, is_Some (db !! k) ↔ is_Some ((insert_row t vals db).1 !! k).
Proof.
  intros k. unfold insert_row. destruct (db !! t) as [tb|] eqn:Ht; [|done].
  assert (∀ tb', is_Some (db !! k) ↔ is_Some (<[t := tb']> db !! k)) as Hins.
  { intros tb'. destruct (decide (t = k)) as [<-|Hne].
    - rewrite lookup_insert_eq, Ht. split; by eexists.
    - by rewrite lookup_insert_ne. }
  destruct (check_values _ _ _ ;; check_sequence _ _ _ _) as [[]|]; [|done].
  destruct (check_constraints _ _ _ _ _) as [[]|]; apply Hins.
Qed.
End Frame.

(** ** The seed script, step by step *)

Section Script.
Variable load : ModuleLoad.

(** On an empty store each step of the script is accepted. *)
Lemma script_departments :
  flush (tablename (Department load))
    [kwargs [("id", VInt 1); ("department_name", VStr "Python")];
     kwargs [("id", VInt 2); ("department_name", VStr "System Administrator")];
     kwargs [("id", VInt 3); ("department_name", VStr "Javascript")];
     kwargs [("id", VInt 4); ("department_name", VStr "Java")]]
    (create_all (metadata load) ∅) = (with_departments load, None).
Proof. vm_cast_no_check (eq_refl (with_departments load, @None Exception)). Qed.

Lemma script_course :
  insert_row (tablename (Course load))
    (values [("department_info", Some (VStr python_course_text));
             ("department_id",
              kwargs [("id", VInt 1); ("department_name", VStr "Python")] !! "id")])
    (with_departments load) = (seeded load, None).
Proof. vm_cast_no_check (eq_refl (seeded load, @None Exception)). Qed.

(** The Course row of a commit that fails is not stored; the value drawn
    for its key stays drawn. *)
Lemma script_commit_failed :
  rollback (with_departments load) (seeded load) = commit_failed load.
Proof. vm_cast_no_check (eq_refl (commit_failed load)). Qed.

Lemma await_fault a work db : await (Some a) a work db = (db, Some OperationalError).
Proof. unfold await, answers. by rewrite decide_True. Qed.

Lemma await_answered fault a work db : fault ≠ Some a → await fault a work db = work db.
Proof. intros. unfold await, answers. by rewrite decide_False. Qed.

(** The script on a store whose tables can be dropped: the declared tables
    end as they do on an empty store, and every other table is left
    alone. *)
Lemma recreate_database_Ok now fault db d :
  drop_all (metadata load) db = Ok d →
  recreate_database load now fault db =
    match fault with
    | Some connection_run_sync => (db, Some OperationalError)
    | Some session_begin_exit =>
        (create_all (metadata load) ∅ ∪ db, Some OperationalError)
    | Some session_execute => (with_departments load ∪ db, Some OperationalError)
    | Some session_commit => (commit_failed load ∪ db, Some OperationalError)
    | None => (seeded load ∪ db, None)
    end.
Proof.
  intros Hdrop. pose proof (create_all_drop_all _ _ _ Hdrop) as Hcreate.
  pose proof script_departments as H2. pose proof script_course as H3.
  pose proof script_commit_failed as H4.
  unfold recreate_database, engine_begin, answers.
  destruct fault as [[]|]; cbv beta zeta.
  - by rewrite decide_True.
  - rewrite decide_False by done. rewrite Hdrop.
    change (Ok () ;; d' ← Ok d; Ok (create_all (metadata load) d'))
      with (Ok (create_all (metadata load) d)).
    cbv beta iota. rewrite Hcreate. unfold transaction.
    rewrite await_fault. by rewrite rollback_same.
  - rewrite decide_False by done. rewrite Hdrop.
    change (Ok () ;; d' ← Ok d; Ok (create_all (metadata load) d'))
      with (Ok (create_all (metadata load) d)).
    cbv beta iota. rewrite Hcreate. unfold transaction.
    rewrite (await_answered _ session_begin_exit) by done.
    rewrite (flush_union _ db _ _ _ H2). cbv beta iota.
    rewrite await_fault. by rewrite rollback_same.
  - rewrite decide_False by done. rewrite Hdrop.
    change (Ok () ;; d' ← Ok d; Ok (create_all (metadata load) d'))
      with (Ok (create_all (metadata load) d)).
    cbv beta iota. rewrite Hcreate. unfold transaction.
    rewrite (await_answered _ session_begin_exit) by done.
    rewrite (flush_union _ db _ _ _ H2). cbv beta iota.
    rewrite (await_answered _ session_execute) by done.
    unfold execute. rewrite (insert_row_union _ db _ _ _ H3). cbv beta iota.
    rewrite await_fault. rewrite rollback_union, H4; [done|].
    intros k. pose proof (f_equal fst H3) as H3'. cbn [fst] in H3'.
    rewrite <- H3'. apply insert_row_dom.
  - rewrite decide_False by done. rewrite Hdrop.
    change (Ok () ;; d' ← Ok d; Ok (create_all (metadata load) d'))
      with (Ok (create_all (metadata load) d)).
    cbv beta iota. rewrite Hcreate. unfold transaction.
    rewrite (await_answered _ session_begin_exit) by done.
    rewrite (flush_union _ db _ _ _ H2). cbv beta iota.
    rewrite (await_answered _ session_execute) by done.
    unfold execute. rewrite (insert_row_union _ db _ _ _ H3). cbv beta iota.
    by rewrite await_answered.
Qed.

(** The script against a store that cannot be reached changes nothing. *)
Lemma recreate_database_unreachable now db :
  recreate_database load now (Some connection_run_sync) db =
    (db, Some OperationalError).
Proof.
  unfold recreate_database, engine_begin, answers. by rewrite decide_True.
Qed.

(** The script on a store in which a table that is not dropped, or not yet
    dropped, refers to a declared table: the script ends at [drop_all] and
    the store is as it was. *)
Lemma recreate_database_Raise now fault db e :
  fault ≠ Some connection_run_sync →
  drop_all (metadata load) db = Raise e →
  recreate_database load now fault db = (db, Some e).
Proof.
  intros Hf Hdrop. unfold recreate_database, engine_begin, answers.
  rewrite decide_False by done. by rewrite Hdrop.
Qed.

(** The script ends without exception exactly when the store answers and
    the tables can be dropped. *)
Lemma recreate_database_completes now fault db :
  (recreate_database load now fault db).2 = None ↔
  fault = None ∧ ∃ d, drop_all (metadata load) db = Ok d.
Proof.
  destruct (drop_all (metadata load) db) as [d|e] eqn:Hdrop.
  - rewrite (recreate_database_Ok _ _ _ _ Hdrop).
    destruct fault as [[]|]; cbn [snd]; split; try done; try (by intros [? _]).
    intros _. split; [done|by eexists].
  - destruct (decide (fault = Some connection_run_sync)) as [->|Hf].
    + unfold recreate_database, engine_begin, answers.
      rewrite decide_True by done. cbn [snd]. split; [done|by intros [? _]].
    + rewrite (recreate_database_Raise _ _ _ _ Hf Hdrop). cbn [snd].
      split; [done|]. by intros [_ [? ?]].
Qed.
End Script.


(** ** What the seed script leaves behind *)

Section Seeded.
Variables (load : ModuleLoad) (now : Z).
Implicit Types db : Database.

Lemma table_rows_union_l (a rest : Database) t :
  is_Some (a !! t) → table_rows (a ∪ rest) t = table_rows a t.
Proof.
  intros [tb Htb]. unfold table_rows.
  by rewrite (lookup_union_Some_l _ _ _ _ Htb), Htb.
Qed.

Lemma seeded_has t :
  t ∈ ["department"; "course"] → is_Some (seeded load !! t).
Proof.
  intros Ht. apply elem_of_cons in Ht as [->|Ht];
    [|apply list_elem_of_singleton in Ht as ->];
    apply (bool_decide_unpack _); vm_compute; exact I.
Qed.

Lemma with_departments_has t :
  t ∈ ["department"; "course"] → is_Some (with_departments load !! t).
Proof.
  intros Ht. apply elem_of_cons in Ht as [->|Ht];
    [|apply list_elem_of_singleton in Ht as ->];
    apply (bool_decide_unpack _); vm_compute; exact I.
Qed.

Lemma commit_failed_has t :
  t ∈ ["department"; "course"] → is_Some (commit_failed load !! t).
Proof.
  intros Ht. apply elem_of_cons in Ht as [->|Ht];
    [|apply list_elem_of_singleton in Ht as ->];
    apply (bool_decide_unpack _); vm_compute; exact I.
Qed.

Lemma select_union_l (a rest : Database) t ks :
  is_Some (a !! t) → select (a ∪ rest) t ks = select a t ks.
Proof. intros H. unfold select. by rewrite table_rows_union_l. Qed.

Lemma column_union_l (a rest : Database) t k :
  is_Some (a !! t) → column (a ∪ rest) t k = column a t k.
Proof. intros H. unfold column. by rewrite table_rows_union_l. Qed.

(** The tables the script leaves can be dropped again: among them only the
    dependent tables refer to a declared table, Department, and their turn
    comes first. *)
Lemma seeded_can_be_dropped load' i m t' tb :
  metadata load' !! i = Some m → seeded load !! t' = Some tb →
  t' ∉ tablename <$> drop (S i) (metadata load') →
  refers_to (tablename m) (t', tb) = false.
Proof.
  intros Hi Htb Hnot.
  assert (forallb (λ p : string * Table,
            forallb (λ im : nat * Model,
                       bool_decide (p.1 ∈ tablename <$> drop (S im.1) (metadata load'))
                       || negb (refers_to (tablename im.2) p))
                    (imap pair (metadata load')))
            (map_to_list (seeded load)) = true) as Hall
    by (vm_compute; reflexivity).
  assert (In (t', tb) (map_to_list (seeded load))) as Hin.
  { exact (proj1 (list_elem_of_In (map_to_list (seeded load)) (t', tb))
             (proj2 (elem_of_map_to_list (seeded load) t' tb) Htb)). }
  clear Htb. rewrite forallb_forall in Hall.
  specialize (Hall (t', tb) Hin). clear Hin. rewrite forallb_forall in Hall.
  assert (In (i, m) (imap pair (metadata load'))) as Him.
  { apply list_elem_of_In. apply elem_of_lookup_imap. exists i, m. split; [reflexivity|exact Hi]. }
  specialize (Hall (i, m) Him). clear Him. cbn [fst snd] in Hall.
  destruct (refers_to (tablename m) (t', tb)); [|reflexivity].
  rewrite orb_false_r in Hall. apply bool_decide_eq_true in Hall.
  destruct (Hnot Hall).
Qed.

Lemma drop_all_seeded_union load' db d :
  drop_all (metadata load') db = Ok d →
  ∃ d', drop_all (metadata load') (seeded load ∪ db) = Ok d'.
Proof.
  intros [_ Hcond]%drop_all_Ok_elim. apply drop_all_Ok_intro.
  intros i m t' tb Hi Htb Hnot.
  apply lookup_union_Some_raw in Htb as [Htb|[_ Htb]].
  - by apply (seeded_can_be_dropped load' i).
  - by apply (Hcond i).
Qed.
End Seeded.


(** * The seed script *)

Section Bootstrap.
Variables (load : ModuleLoad) (now : Z).
Implicit Types db : Database.

(** C2.  After the seed script has run to its end, on a store whose tables
    could be dropped, the Department table holds exactly four rows, with
    the identities and names (1, Python), (2, System Administrator),
    (3, Javascript), (4, Java). *)
Theorem departments_after_bootstrap db d :
  drop_all (metadata load) db = Ok d →
  (recreate_database load now None db).2 = None ∧
  select (recreate_database load now None db).1 "department" ["id"; "department_name"] =
    [ [Some (VInt 1); Some (VStr "Python")];
      [Some (VInt 2); Some (VStr "System Administrator")];
      [Some (VInt 3); Some (VStr "Javascript")];
      [Some (VInt 4); Some (VStr "Java")] ].
Proof.
  intros Hdrop. rewrite (recreate_database_Ok _ _ _ _ _ Hdrop).
  cbn [fst snd]. split; [done|].
  rewrite select_union_l.
  - vm_compute. reflexivity.
  - apply seeded_has. repeat constructor.
Qed.

(** C1 (what the code does).  After the seed script has run to its end,
    the Course table holds one row only: the Python description, attached
    to department 1.  The statement built for the second description is
    never executed. *)
Theorem courses_after_bootstrap db d :
  drop_all (metadata load) db = Ok d →
  (recreate_database load now None db).2 = None ∧
  select (recreate_database load now None db).1 "course"
    ["id"; "department_id"; "department_info"] =
    [ [Some (VInt 1); Some (VInt 1); Some (VStr python_course_text)] ].
Proof.
  intros Hdrop. rewrite (recreate_database_Ok _ _ _ _ _ Hdrop).
  cbn [fst snd]. split; [done|].
  rewrite select_union_l.
  - vm_compute. reflexivity.
  - apply seeded_has. repeat constructor.
Qed.

(** C9.  The script is not atomic across its two insert stages: when the
    tables have been dropped and recreated and the store then fails while
    the Course statement is executed, or while its transaction is
    committed, the script ends with that exception, the four Department
    rows of the first stage stay committed and no Course row is. *)
Theorem seed_stages_not_atomic db d :
  drop_all (metadata load) db = Ok d →
  let failed_execute := recreate_database load now (Some session_execute) db in
  let failed_commit := recreate_database load now (Some session_commit) db in
  let four_departments :=
    [ [Some (VInt 1); Some (VStr "Python")];
      [Some (VInt 2); Some (VStr "System Administrator")];
      [Some (VInt 3); Some (VStr "Javascript")];
      [Some (VInt 4); Some (VStr "Java")] ] in
  (failed_execute.2 = Some OperationalError ∧
   select failed_execute.1 "department" ["id"; "department_name"] = four_departments ∧
   table_rows failed_execute.1 "course" = []) ∧
  (failed_commit.2 = Some OperationalError ∧
   select failed_commit.1 "department" ["id"; "department_name"] = four_departments ∧
   table_rows failed_commit.1 "course" = []).
Proof.
  intros Hdrop. cbv zeta. rewrite !(recreate_database_Ok _ _ _ _ _ Hdrop).
  cbn [fst snd].
  split; (split; [reflexivity|split]).
  - rewrite select_union_l by (apply with_departments_has; repeat constructor).
    vm_compute. reflexivity.
  - rewrite table_rows_union_l by (apply with_departments_has; repeat constructor).
    vm_compute. reflexivity.
  - rewrite select_union_l by (apply commit_failed_has; repeat constructor).
    vm_compute. reflexivity.
  - rewrite table_rows_union_l by (apply commit_failed_has; repeat constructor).
    vm_compute. reflexivity.
Qed.
End Bootstrap.

(** C8 (counterexample).  A second run whose process loaded the module at
    another time leaves other timestamps than the first run left. *)
Lemma reset_is_not_idempotent : ¬ reset_is_idempotent.
Proof.
  intros H. specialize (H (mkLoad 10 11) 0 (mkLoad 20 21) 0 ∅).
  apply (f_equal (λ d, column d "department" "created_at")) in H.
  vm_compute in H. discriminate H.
Qed.

Lemma forget_timestamps_seeded load1 load2 :
  forget_timestamps (seeded load1) = forget_timestamps (seeded load2).
Proof. vm_cast_no_check (eq_refl (forget_timestamps (seeded load2))). Qed.

Lemma seeded_dom load1 load2 k :
  is_Some (seeded load1 !! k) → is_Some (seeded load2 !! k).
Proof.
  intros H. pose proof (forget_timestamps_seeded load1 load2) as E.
  apply (f_equal (λ d : Database, d !! k)) in E.
  unfold forget_timestamps in E. rewrite !lookup_fmap in E.
  destruct H as [tb Htb]. rewrite Htb in E.
  destruct (seeded load2 !! k); [by eexists|discriminate E].
Qed.

(** C8 (amended).  A run of the seed script overwrites what an earlier run
    left: two runs in succession leave the store that the second run alone
    would leave.  That store is the store after the first run if both
    processes loaded the module at the same clock readings, and differs from
    it in timestamps only if they did not.  (On a store whose tables cannot
    be dropped each run leaves the store as it was.) *)
Theorem reset_idempotent_up_to_timestamps load1 now1 load2 now2 (db : Database) :
  let once := (recreate_database load1 now1 None db).1 in
  let twice := (recreate_database load2 now2 None once).1 in
  twice = (recreate_database load2 now2 None db).1 ∧
  (load1 = load2 → twice = once) ∧
  forget_timestamps twice = forget_timestamps once.
Proof.
  cbv zeta.
  destruct (drop_all (metadata load1) db) as [d|e] eqn:Hdrop1.
  - assert (drop_all (metadata load2) db = Ok d) as Hdrop2
      by (rewrite <- Hdrop1; apply drop_all_names; reflexivity).
    rewrite (recreate_database_Ok _ _ _ _ _ Hdrop1),
      (recreate_database_Ok _ _ _ _ _ Hdrop2). cbn [fst].
    destruct (drop_all_seeded_union load1 load2 db d Hdrop2) as [d' Hdrop].
    rewrite (recreate_database_Ok _ _ _ _ _ Hdrop). cbn [fst].
    assert (seeded load2 ∪ (seeded load1 ∪ db) = seeded load2 ∪ db) as Hover.
    { apply map_eq. intros k.
      destruct (seeded load2 !! k) as [tb2|] eqn:E2.
      - by rewrite !(lookup_union_Some_l _ _ _ _ E2).
      - rewrite !(lookup_union_r _ _ _ E2).
        destruct (seeded load1 !! k) as [tb1|] eqn:E1; [|by rewrite lookup_union_r].
        destruct (seeded_dom load1 load2 k) as [? ?]; [by eexists|congruence]. }
    split; [exact Hover|]. split.
    + intros ->. rewrite (assoc_L (∪)). by rewrite (idemp_L (∪) (seeded load2)).
    + rewrite Hover.
      assert (∀ a b : Database,
                forget_timestamps (a ∪ b) = forget_timestamps a ∪ forget_timestamps b)
        as Hunion by (intros; apply map_fmap_union).
      by rewrite !Hunion, (forget_timestamps_seeded load2 load1).
  - assert (drop_all (metadata load2) db = Raise e) as Hdrop2
      by (rewrite <- Hdrop1; apply drop_all_names; reflexivity).
    assert (@None Await ≠ Some connection_run_sync) as Hf by done.
    rewrite (recreate_database_Raise _ _ _ _ _ Hf Hdrop1). cbn [fst].
    rewrite (recreate_database_Raise _ _ _ _ _ Hf Hdrop2). cbn [fst].
    repeat split; reflexivity.
Qed.


(** * The declared constraints at work *)

(** ** Facts about the declarations *)

Section Declarations.
Variable load : ModuleLoad.

Lemma metadata_cases m :
  m ∈ metadata load →
  m = Reception load ∨ m = Department load ∨ m = Customer load ∨
  m = Course load ∨ m = Vacancy load ∨ m = News load.
Proof.
  unfold metadata. rewrite !elem_of_cons, elem_of_nil. tauto.
Qed.

Lemma columns_NoDup m : m ∈ metadata load → NoDup (name <$> columns m).
Proof.
  intros Hm. apply metadata_cases in Hm as [->|[->|[->|[->|[->| ->]]]]];
    apply (bool_decide_unpack _); vm_compute; exact I.
Qed.

(** Every table starts with the columns of [BaseModel]. *)
Lemma columns_BaseModel m :
  m ∈ metadata load → ∃ own, columns m = (BaseModel load ++ own)%list.
Proof.
  intros Hm. apply metadata_cases in Hm as [->|[->|[->|[->|[->| ->]]]]];
    eexists; reflexivity.
Qed.

Lemma BaseModel_columns m c :
  m ∈ metadata load → c ∈ BaseModel load → c ∈ columns m.
Proof.
  intros Hm Hc. destruct (columns_BaseModel m Hm) as [own ->].
  apply elem_of_app. by left.
Qed.

(** The only key besides [id] is the name of a department. *)
Lemma unique_columns m c :
  m ∈ metadata load → c ∈ columns m → is_unique c || is_primary_key c = true →
  name c = "id" ∨ (m = Department load ∧ name c = "department_name").
Proof.
  intros Hm Hc Hu.
  apply metadata_cases in Hm as [->|[->|[->|[->|[->| ->]]]]];
    simpl in Hc; rewrite !elem_of_cons, elem_of_nil in Hc;
    repeat (destruct Hc as [->|Hc]; [first [discriminate Hu | by left | by right]|]);
    done.
Qed.

(** The only column that draws from a sequence is [id]. *)
Lemma autoincrement_columns m c :
  m ∈ metadata load → c ∈ columns m → is_autoincrement c = true → c = BaseModel_id.
Proof.
  intros Hm Hc Hu.
  apply metadata_cases in Hm as [->|[->|[->|[->|[->| ->]]]]];
    simpl in Hc; rewrite !elem_of_cons, elem_of_nil in Hc;
    repeat (destruct Hc as [->|Hc]; [first [discriminate Hu | reflexivity]|]);
    done.
Qed.

(** The foreign keys of the schema: each dependent table refers to
    Department through one nullable column. *)
Lemma foreign_key_columns m c t k :
  m ∈ metadata load → c ∈ columns m → get_foreign_key c = Some (t, k) →
  t = "department" ∧ is_nullable c = true ∧
  (tablename m, name c, k) ∈ department_references.
Proof.
  intros Hm Hc Hfk.
  apply metadata_cases in Hm as [->|[->|[->|[->|[->| ->]]]]];
    simpl in Hc; rewrite !elem_of_cons, elem_of_nil in Hc;
    repeat (destruct Hc as [->|Hc];
            [first [discriminate Hfk
                   | injection Hfk as <- <-; split; [done|split; [done|]];
                     unfold department_references;
                     rewrite !elem_of_cons; simpl; tauto]|]);
    done.
Qed.

Lemma NoDup_name_inj (cols : list Column) c c' :
  NoDup (name <$> cols) → c ∈ cols → c' ∈ cols → name c = name c' → c = c'.
Proof.
  induction cols as [|c0 cs IH]; [by intros _ ?%elem_of_nil|].
  rewrite fmap_cons, NoDup_cons. intros [Hfresh Hnd] Hc Hc' Heq.
  apply elem_of_cons in Hc as [->|Hc]; apply elem_of_cons in Hc' as [->|Hc'].
  - done.
  - destruct Hfresh. rewrite Heq. by apply list_elem_of_fmap_2.
  - destruct Hfresh. rewrite <- Heq. by apply list_elem_of_fmap_2.
  - by apply IH.
Qed.

Lemma department_reference_column m cname k :
  m ∈ metadata load → (tablename m, cname, k) ∈ department_references →
  ∃ c, c ∈ columns m ∧ name c = cname ∧
       get_foreign_key c = Some ("department", k) ∧ is_nullable c = true ∧
       (∀ seq, default_value seq c = None) ∧
       ∀ c', c' ∈ columns m → is_Some (get_foreign_key c') → c' = c.
Proof.
  intros Hm Href.
  assert (∃ c, c ∈ columns m ∧ name c = cname ∧
               get_foreign_key c = Some ("department", k) ∧
               ∀ seq, default_value seq c = None) as (c & Hc & Hn & Hfk & Hdef).
  { unfold department_references in Href.
    rewrite !elem_of_cons, elem_of_nil in Href.
    apply metadata_cases in Hm as [->|[->|[->|[->|[->| ->]]]]];
      simpl in Href;
      repeat (destruct Href as [Href|Href]; [try discriminate Href|]); try done;
      injection Href as -> ->.
    - exists (mkColumn "department_name" sa.String
                [ForeignKey "department" "department_name"]).
      split; [|done]. simpl. rewrite !elem_of_cons. auto 10.
    - exists (mkColumn "department_id" sa.Integer [ForeignKey "department" "id"]).
      split; [|done]. simpl. rewrite !elem_of_cons. auto 10.
    - exists (mkColumn "department_id" sa.Integer [ForeignKey "department" "id"]).
      split; [|done]. simpl. rewrite !elem_of_cons. auto 10.
    - exists (mkColumn "department_id" sa.Integer [ForeignKey "department" "id"]).
      split; [|done]. simpl. rewrite !elem_of_cons. auto 10. }
  exists c. repeat split; try done.
  - by destruct (foreign_key_columns m c _ _ Hm Hc Hfk) as (_ & ? & _).
  - intros c' Hc' [[t' k'] Hfk'].
    apply (NoDup_name_inj (columns m)); auto using columns_NoDup.
    destruct (foreign_key_columns m c _ _ Hm Hc Hfk) as (_ & _ & Hr).
    destruct (foreign_key_columns m c' _ _ Hm Hc' Hfk') as (_ & _ & Hr').
    unfold department_references in Hr, Hr'.
    rewrite !elem_of_cons, elem_of_nil in Hr, Hr'.
    repeat (destruct Hr as [Hr|Hr]; [|]); try done;
      repeat (destruct Hr' as [Hr'|Hr']; [|]); try done; congruence.
Qed.
End Declarations.

(** ** Statements and transactions *)

Section Statements.
Implicit Types (db d : Database) (vals : Values) (r : Row).

Lemma transaction_committed body db :
  (transaction body db).2 = None → body db = ((transaction body db).1, None).
Proof. unfold transaction. by destruct (body db) as [d [e|]]. Qed.

Lemma transaction_accepted body db d :
  body db = (d, None) → transaction body db = (d, None).
Proof. unfold transaction. by intros ->. Qed.

Lemma transaction_rolled_back body db d e :
  body db = (d, Some e) → transaction body db = (rollback db d, Some e).
Proof. unfold transaction. by intros ->. Qed.

(** A transaction that an exception leaves stores no row and changes no
    declaration. *)
Lemma transaction_rows body db t :
  (transaction body db).2 ≠ None →
  table_rows (transaction body db).1 t = table_rows db t.
Proof.
  unfold transaction. destruct (body db) as [d [e|]]; [|done].
  intros _. apply table_rows_rollback.
Qed.

Lemma transaction_schema body db t :
  (transaction body db).2 ≠ None →
  table_schema (transaction body db).1 t = table_schema db t.
Proof.
  unfold transaction. destruct (body db) as [d [e|]]; [|done].
  intros _. apply table_schema_rollback.
Qed.

Lemma table_schema_Some db t cols :
  table_schema db t = Some cols → ∃ tb, db !! t = Some tb ∧ schema tb = cols.
Proof.
  unfold table_schema. destruct (db !! t) as [tb|]; [|done].
  intros [= <-]. eauto.
Qed.

Lemma elem_of_column db t k v :
  Some v ∈ column db t k ↔ ∃ o, o ∈ table_rows db t ∧ o !! k = Some v.
Proof.
  unfold column. rewrite list_elem_of_fmap. split.
  - intros (o & Hv & Ho). eauto.
  - intros (o & Ho & Hv). eauto.
Qed.

Lemma check_constraints_Ok db t cols (others : list Row) r :
  check_constraints db t cols others r = Ok () ↔
  check_not_null t cols r = Ok () ∧ check_unique t cols others r = Ok () ∧
  check_foreign_keys db t cols r = Ok ().
Proof.
  unfold check_constraints.
  destruct (check_not_null _ _ _) as [[]|]; [|naive_solver].
  destruct (check_unique _ _ _ _) as [[]|]; [|naive_solver].
  destruct (check_foreign_keys _ _ _ _) as [[]|]; naive_solver.
Qed.

Lemma check_constraints_Raise db t cols (others : list Row) r e :
  check_constraints db t cols others r = Raise e ↔
  check_not_null t cols r = Raise e ∨
  check_not_null t cols r = Ok () ∧
  (check_unique t cols others r = Raise e ∨
   check_unique t cols others r = Ok () ∧ check_foreign_keys db t cols r = Raise e).
Proof.
  unfold check_constraints.
  destruct (check_not_null _ _ _) as [[]|]; [|naive_solver].
  destruct (check_unique _ _ _ _) as [[]|]; [|naive_solver].
  destruct (check_foreign_keys _ _ _ _) as [[]|]; naive_solver.
Qed.

(** An insertion is accepted when its values are well typed, the sequence
    has a value for it and the completed row passes the checks; the row is
    then stored. *)
Lemma insert_row_accepted t vals db d :
  insert_row t vals db = (d, None) ↔
  ∃ tb, db !! t = Some tb ∧
        well_typed (schema tb) vals ∧
        check_sequence t (schema tb) vals (sequence tb) = Ok () ∧
        check_constraints db t (schema tb) (rows tb)
          (fill (schema tb) (sequence tb) vals) = Ok () ∧
        d = <[t := stored tb vals]> db.
Proof.
  unfold insert_row. destruct (db !! t) as [tb|];
    [|split; [done|by intros (? & ? & _)]].
  destruct (check_values t (schema tb) vals) as [[]|e1] eqn:E1.
  - pose proof (proj1 (check_values_Ok _ _ _) E1) as Hwt.
    change (Ok () ;; ?x) with x.
    destruct (check_sequence _ _ _ _) as [[]|e2] eqn:E2.
    + destruct (check_constraints _ _ _ _ _) as [[]|e3] eqn:E3.
      * split; [intros [= <-]; by eauto 10|].
        by intros (tb' & [= <-] & _ & _ & _ & ->).
      * split; [done|]. intros (tb' & [= <-] & _ & _ & H & _). congruence.
    + split; [done|]. intros (tb' & [= <-] & _ & H & _). congruence.
  - change (Raise e1 ;; ?x) with (@Raise () e1).
    split; [done|]. intros (tb' & [= <-] & H & _).
    apply (check_values_Ok t) in H. congruence.
Qed.

(** A rejected insertion: refused before it is sent, which changes
    nothing, or rejected by the store, which leaves the sequence moved. *)
Lemma insert_row_rejected t vals db d e :
  insert_row t vals db = (d, Some e) ↔
  (db !! t = None ∧ d = db ∧ e = ProgrammingError t) ∨
  ∃ tb, db !! t = Some tb ∧
    (d = db ∧
     (check_values t (schema tb) vals = Raise e ∨
      well_typed (schema tb) vals ∧
      check_sequence t (schema tb) vals (sequence tb) = Raise e) ∨
     d = <[t := drawn tb vals]> db ∧
     well_typed (schema tb) vals ∧
     check_sequence t (schema tb) vals (sequence tb) = Ok () ∧
     check_constraints db t (schema tb) (rows tb)
       (fill (schema tb) (sequence tb) vals) = Raise e).
Proof.
  unfold insert_row. destruct (db !! t) as [tb|].
  2:{ split; [intros [= <- <-]; by left|].
      by intros [(_ & -> & ->)|(? & ? & _)]. }
  destruct (check_values t (schema tb) vals) as [[]|e1] eqn:E1.
  - pose proof (proj1 (check_values_Ok _ _ _) E1) as Hwt.
    change (Ok () ;; ?x) with x.
    destruct (check_sequence _ _ _ _) as [[]|e2] eqn:E2.
    + destruct (check_constraints _ _ _ _ _) as [[]|e3] eqn:E3.
      * split; [done|].
        intros [[? _]|(tb' & [= <-] & [(_ & [?|[_ ?]])|(_ & _ & _ & ?)])];
          congruence.
      * split.
        -- intros [= <- <-]. right. exists tb. split; [done|]. right. by eauto.
        -- unfold drawn.
           intros [[? _]|(tb' & [= <-] & [(_ & [?|[_ ?]])|(-> & _ & _ & ?)])];
             congruence.
    + split.
      * intros [= <- <-]. right. exists tb. split; [done|]. left. by auto.
      * intros [[? _]|(tb' & [= <-] & [(-> & [?|[_ ?]])|(_ & _ & ? & _)])];
          congruence.
  - change (Raise e1 ;; ?x) with (@Raise () e1). split.
    + intros [= <- <-]. right. exists tb. split; [done|]. left. by auto.
    + intros [[? _]|(tb' & [= <-] & [(-> & [?|[H _]])|(_ & H & _)])];
        try congruence; apply (check_values_Ok t) in H; congruence.
Qed.

(** The row an insertion completes holds a value in a column if the
    insertion gives one, or leaves the column out and the column has a
    default. *)
Lemma fill_is_Some cols seq vals c :
  NoDup (name <$> cols) → c ∈ cols →
  is_Some (fill cols seq vals !! name c) ↔
  (∃ v, vals !! name c = Some (Some v)) ∨
  vals !! name c = None ∧ is_Some (default_value seq c).
Proof.
  intros Hnd Hc. rewrite lookup_fill by done.
  destruct (vals !! name c) as [[v|]|].
  - split; [by eauto|by eexists].
  - split; [by intros [? ?]|]. by intros [[? ?]|[? _]].
  - split; [by auto|]. by intros [[? ?]|[_ ?]].
Qed.

Lemma table_rows_insert db t tb :
  table_rows (<[t := tb]> db) t = rows tb.
Proof. unfold table_rows. by rewrite lookup_insert_eq. Qed.

Lemma table_rows_insert_ne db t t' tb :
  t ≠ t' → table_rows (<[t := tb]> db) t' = table_rows db t'.
Proof. intros. unfold table_rows. by rewrite lookup_insert_ne. Qed.

Lemma table_rows_lookup db t tb : db !! t = Some tb → table_rows db t = rows tb.
Proof. unfold table_rows. by intros ->. Qed.

Lemma next_id_rollback db d t seq :
  is_Some (db !! t) → next_id d t = Some seq → next_id (rollback db d) t = Some seq.
Proof.
  intros [tb Htb]. unfold next_id. rewrite lookup_rollback, Htb.
  by destruct (d !! t) as [tb'|]; [intros [= <-]|].
Qed.

Lemma has_default_any_seq seq seq' c :
  default_value seq c = None → default_value seq' c = None.
Proof.
  unfold default_value. destruct (get_default c); [done|].
  destruct (get_server_default c); [done|]. by destruct (is_autoincrement c).
Qed.

Lemma elem_of_required cols k :
  k ∈ required cols ↔
  ∃ c, c ∈ cols ∧ name c = k ∧ is_nullable c = false ∧ default_value 0 c = None.
Proof.
  unfold required. rewrite list_elem_of_fmap. split.
  - intros (c & -> & Hc). apply list_elem_of_In, filter_In in Hc as [Hc Hf].
    apply andb_true_iff in Hf as [Hn Hd]. apply negb_true_iff in Hn.
    apply bool_decide_eq_true in Hd. exists c.
    by rewrite list_elem_of_In.
  - intros (c & Hc & <- & Hn & Hd). exists c. split; [done|].
    apply list_elem_of_In, filter_In. split; [by apply list_elem_of_In|].
    by rewrite Hn, bool_decide_eq_true_2.
Qed.

Lemma elem_of_not_null cols k :
  k ∈ not_null cols ↔ ∃ c, c ∈ cols ∧ name c = k ∧ is_nullable c = false.
Proof.
  unfold not_null. rewrite list_elem_of_fmap. split.
  - intros (c & -> & Hc). apply list_elem_of_In, filter_In in Hc as [Hc Hf].
    apply negb_true_iff in Hf. exists c. by rewrite list_elem_of_In.
  - intros (c & Hc & <- & Hn). exists c. split; [done|].
    apply list_elem_of_In, filter_In. split; [by apply list_elem_of_In|].
    by rewrite Hn.
Qed.

(** The admissible insertions are those that pass the checks before the
    ones on keys and references. *)
Lemma admissible_iff t cols seq vals :
  NoDup (name <$> cols) →
  admissible cols seq vals ↔
  check_values t cols vals = Ok () ∧ check_sequence t cols vals seq = Ok () ∧
  check_not_null t cols (fill cols seq vals) = Ok ().
Proof.
  intros Hnd. unfold admissible.
  rewrite check_values_Ok, check_sequence_Ok, check_not_null_Ok, !Forall_forall.
  split.
  - intros (Hwt & Hreq & Hnn & Hseq). split; [done|]. split; [done|].
    intros c Hc Hn. apply fill_is_Some; [done..|].
    assert (vals !! name c ≠ Some None) as Hnull
      by (apply Hnn, elem_of_not_null; eauto).
    destruct (vals !! name c) as [[v|]|] eqn:Hv; [by eauto|done|]. right.
    split; [done|]. destruct (default_value seq c) as [x|] eqn:Hd; [by eexists|].
    assert (is_Some (vals !! name c)) as [? ?]; [|congruence].
    apply Hreq, elem_of_required. exists c. repeat split; try done.
    by apply (has_default_any_seq seq).
  - intros (Hwt & Hseq & Hnn). split; [done|]. split; [|split; [|done]].
    + intros k (c & Hc & <- & Hn & Hd)%elem_of_required.
      apply Hnn in Hn; [|done]. apply fill_is_Some in Hn as [[v Hv]|[_ [x Hx]]];
        [by rewrite Hv| |done..].
      by rewrite (has_default_any_seq 0 seq) in Hx.
    + intros k (c & Hc & <- & Hn)%elem_of_not_null Hnull.
      apply Hnn in Hn; [|done]. apply fill_is_Some in Hn as [[v Hv]|[Hv _]];
        [congruence|congruence|done..].
Qed.

Lemma next_id_insert db t tb : next_id (<[t := tb]> db) t = Some (sequence tb).
Proof. unfold next_id. by rewrite lookup_insert_eq. Qed.

(** An insertion that is sent and for which the sequence has a value is
    stored if the completed row passes the checks; otherwise the store
    rejects it, and the value drawn for it stays drawn. *)
Lemma transaction_insert_sent now t vals db tb :
  db !! t = Some tb →
  check_values t (schema tb) vals = Ok () →
  check_sequence t (schema tb) vals (sequence tb) = Ok () →
  transaction (execute now (Insert t vals)) db =
    match check_constraints db t (schema tb) (rows tb)
            (fill (schema tb) (sequence tb) vals) with
    | Ok () => (<[t := stored tb vals]> db, None)
    | Raise e => (<[t := drawn tb vals]> db, Some e)
    end.
Proof.
  intros Htb Hv Hs. unfold transaction, execute, insert_row.
  rewrite Htb, Hv, Hs. change (Ok () ;; ?x) with x. cbv beta iota zeta.
  destruct (check_constraints _ _ _ _ _) as [[]|e]; [done|].
  by rewrite (rollback_insert _ _ _ _ Htb).
Qed.

Lemma transaction_insert_admissible now t vals db tb :
  db !! t = Some tb → NoDup (name <$> schema tb) →
  admissible (schema tb) (sequence tb) vals →
  transaction (execute now (Insert t vals)) db =
    match check_unique t (schema tb) (rows tb) (fill (schema tb) (sequence tb) vals) ;;
          check_foreign_keys db t (schema tb) (fill (schema tb) (sequence tb) vals) with
    | Ok () => (<[t := stored tb vals]> db, None)
    | Raise e => (<[t := drawn tb vals]> db, Some e)
    end.
Proof.
  intros Htb Hnd (Hv & Hs & Hn)%(admissible_iff t); [|done].
  rewrite (transaction_insert_sent _ _ _ _ _ Htb Hv Hs).
  unfold check_constraints. rewrite Hn. reflexivity.
Qed.

(** An insertion that is not admissible is refused before the checks on
    keys and references. *)
Lemma transaction_insert_refused now t vals db tb :
  db !! t = Some tb → NoDup (name <$> schema tb) →
  ¬ admissible (schema tb) (sequence tb) vals →
  ∃ e, (transaction (execute now (Insert t vals)) db).2 = Some e ∧ refused_early t e.
Proof.
  intros Htb Hnd Hnot. rewrite (admissible_iff t) in Hnot by done.
  unfold transaction, execute.
  destruct (insert_row t vals db) as [d [e|]] eqn:E.
  - exists e. split; [done|].
    apply insert_row_rejected in E as [[? _]|(tb' & Htb' & E)]; [congruence|].
    rewrite Htb in Htb'. injection Htb' as <-.
    destruct E as [(_ & [E|[_ E]])|(_ & Hwt & Hs & E)].
    + apply check_values_Raise in E as [_ [->|[k ->]]]; [by left|right; left; eauto].
    + apply check_sequence_Raise in E as (c & _ & _ & _ & ->). right; left; eauto.
    + apply check_constraints_Raise in E as [E|[E _]].
      * apply check_not_null_Raise in E as (c & _ & _ & _ & ->). right; right; eauto.
      * destruct Hnot. by rewrite check_values_Ok.
  - apply insert_row_accepted in E as (tb' & Htb' & Hwt & Hs & E & _).
    rewrite Htb in Htb'. injection Htb' as <-.
    apply check_constraints_Ok in E as (E & _). destruct Hnot.
    by rewrite check_values_Ok.
Qed.
End Statements.


(** ** Inserting rows *)

Section Inserting.
Variable load : ModuleLoad.
Implicit Types (db : Database) (vals : Values) (m : Model).

Lemma column_after_insert db t tb vals k :
  db !! t = Some tb →
  column (<[t := stored tb vals]> db) t k =
    column db t k ++ [fill (schema tb) (sequence tb) vals !! k].
Proof.
  intros Htb. unfold column.
  rewrite table_rows_insert, (table_rows_lookup _ _ _ Htb).
  unfold stored. cbn [rows]. by rewrite fmap_app.
Qed.

Lemma column_drawn db t tb vals t' k :
  db !! t = Some tb → column (<[t := drawn tb vals]> db) t' k = column db t' k.
Proof.
  intros Htb. unfold column, table_rows.
  destruct (decide (t = t')) as [<-|Hne].
  - by rewrite lookup_insert_eq, Htb.
  - by rewrite lookup_insert_ne.
Qed.

(** C3 (what the code does).  A row inserted without a [created_at], into
    any of the six tables and whatever the clock reads at that moment,
    carries the reading of the clock at which the process that created the
    tables loaded the module: the literal of [server_default]. *)
Theorem created_at_is_the_load_time m now vals db :
  m ∈ metadata load →
  table_schema db (tablename m) = Some (columns m) →
  vals !! "created_at" = None →
  (transaction (execute now (Insert (tablename m) vals)) db).2 = None →
  column (transaction (execute now (Insert (tablename m) vals)) db).1
    (tablename m) "created_at" =
  column db (tablename m) "created_at" ++ [Some (VTime (created_at_now load))].
Proof.
  intros Hm Hs Hv Hok. apply transaction_committed in Hok.
  destruct (transaction _ db) as [out e]. cbn [fst snd] in *.
  apply insert_row_accepted in Hok as (tb & Htb & _ & _ & _ & ->).
  apply table_schema_Some in Hs as (tb' & Htb' & Hcols).
  rewrite Htb in Htb'. injection Htb' as <-.
  rewrite (column_after_insert _ _ _ _ _ Htb), Hcols. f_equal. f_equal.
  change "created_at" with (name (BaseModel_created_at load)).
  rewrite lookup_fill.
  - cbn [name BaseModel_created_at]. by rewrite Hv.
  - by apply (columns_NoDup load).
  - apply (BaseModel_columns load); [done|]. unfold BaseModel.
    rewrite !elem_of_cons. auto.
Qed.

Lemma Department_in_metadata : Department load ∈ metadata load.
Proof. unfold metadata. rewrite !elem_of_cons. auto. Qed.

Lemma lookup_fill_given m seq vals c :
  m ∈ metadata load → c ∈ columns m →
  fill (columns m) seq vals !! name c =
    match vals !! name c with Some v => v | None => default_value seq c end.
Proof. intros Hm Hc. apply lookup_fill; [by apply (columns_NoDup load)|done]. Qed.

Lemma BaseModel_id_column m : m ∈ metadata load → BaseModel_id ∈ columns m.
Proof.
  intros Hm. apply (BaseModel_columns load); [done|].
  unfold BaseModel. rewrite !elem_of_cons. auto.
Qed.

(** The key is drawn from the sequence exactly when the insertion leaves
    [id] out. *)
Lemma draws_sequence_id m vals :
  m ∈ metadata load →
  draws_sequence (columns m) vals = bool_decide (vals !! "id" = None).
Proof.
  intros Hm. unfold draws_sequence.
  destruct (bool_decide (vals !! "id" = None)) eqn:Hv.
  - apply existsb_exists. exists BaseModel_id.
    split; [by apply list_elem_of_In, BaseModel_id_column|].
    unfold draws. cbn [name BaseModel_id]. by rewrite Hv.
  - destruct (existsb _ _) eqn:E; [|done].
    apply existsb_exists in E as (c & Hc & Hd). apply list_elem_of_In in Hc.
    unfold draws in Hd. apply andb_true_iff in Hd as [Hd _].
    apply andb_true_iff in Hd as [Hd _]. apply andb_true_iff in Hd as [Ha Hd].
    rewrite (autoincrement_columns load m c Hm Hc Ha) in Hd.
    cbn [name BaseModel_id] in Hd. congruence.
Qed.

Lemma id_stored m seq vals :
  m ∈ metadata load → fill (columns m) seq vals !! "id" = row_id seq vals.
Proof.
  intros Hm. change "id" with (name BaseModel_id).
  rewrite lookup_fill_given by auto using BaseModel_id_column.
  cbn [name BaseModel_id]. unfold row_id. by destruct (vals !! "id").
Qed.

Lemma next_id_drawn m db tb vals seq :
  m ∈ metadata load → schema tb = columns m → sequence tb = seq →
  next_id (<[tablename m := drawn tb vals]> db) (tablename m) =
    Some (if decide (vals !! "id" = None) then seq + 1 else seq).
Proof.
  intros Hm Hcols <-. rewrite next_id_insert. unfold drawn. cbn [sequence].
  rewrite Hcols, (draws_sequence_id m) by done.
  by destruct (decide (vals !! "id" = None));
    [rewrite bool_decide_eq_true_2|rewrite bool_decide_eq_false_2].
Qed.


(** What the store holds for hypotheses of the form used below. *)
Lemma table_of db t cols seq :
  table_schema db t = Some cols → next_id db t = Some seq →
  ∃ tb, db !! t = Some tb ∧ schema tb = cols ∧ sequence tb = seq.
Proof.
  unfold table_schema, next_id. destruct (db !! t) as [tb|]; [|done].
  intros [= <-] [= <-]. eauto.
Qed.


Lemma dependent_not_Department m cname k :
  (tablename m, cname, k) ∈ department_references → m ≠ Department load.
Proof.
  intros Href ->. unfold department_references in Href.
  rewrite !elem_of_cons, elem_of_nil in Href. cbn [tablename Department] in Href.
  repeat (destruct Href as [Href|Href]; [discriminate Href|]). done.
Qed.
End Inserting.


(** ** Updating rows *)

Section Updating.
Implicit Types (db : Database) (r : Row) (cols : list Column).

Lemma lookup_assign_ne now sets c r k :
  name c ≠ k → assign now sets c r !! k = r !! k.
Proof.
  intros Hne. unfold assign.
  destruct (sets !! name c) as [[v|]|].
  - by rewrite lookup_insert_ne.
  - by rewrite lookup_delete_ne.
  - destruct (get_onupdate c) as [[]|]; [|done]. by rewrite lookup_insert_ne.
Qed.

Lemma lookup_apply_update_other now cols sets r k :
  k ∉ name <$> cols → apply_update now cols sets r !! k = r !! k.
Proof.
  induction cols as [|c cs IH]; intros Hk; [done|].
  rewrite fmap_cons in Hk. apply not_elem_of_cons in Hk as [Hne Hk].
  unfold apply_update. cbn [foldr]. rewrite lookup_assign_ne by done. by apply IH.
Qed.

(** After an update a declared column holds the value assigned to it, or
    the clock reading if it declares [onupdate] and was not assigned, or
    what it held before. *)
Lemma lookup_apply_update now cols sets r c :
  NoDup (name <$> cols) → c ∈ cols →
  apply_update now cols sets r !! name c =
    match sets !! name c with
    | Some ov => ov
    | None => match get_onupdate c with
              | Some datetime_now => Some (VTime now)
              | None => r !! name c
              end
    end.
Proof.
  induction cols as [|c0 cs IH]; intros Hnd Hin; [by apply elem_of_nil in Hin|].
  rewrite fmap_cons in Hnd. apply NoDup_cons in Hnd as [Hfresh Hnd].
  unfold apply_update. cbn [foldr].
  apply elem_of_cons in Hin as [->|Hin].
  - unfold assign. destruct (sets !! name c0) as [[v|]|].
    + by rewrite lookup_insert_eq.
    + by rewrite lookup_delete_eq.
    + destruct (get_onupdate c0) as [[]|]; [by rewrite lookup_insert_eq|].
      by apply lookup_apply_update_other.
  - rewrite lookup_assign_ne; [by apply IH|].
    intros Heq. apply Hfresh. rewrite Heq. by apply list_elem_of_fmap_2.
Qed.

Lemma update_row_Ok now t k sets db db' :
  update_row now t k sets db = (db', None) →
  ∃ tb, db !! t = Some tb ∧
    (list_find (λ r, r !! "id" = Some (VInt k)) (rows tb) = None ∧ db' = db ∨
     ∃ i r, list_find (λ r, r !! "id" = Some (VInt k)) (rows tb) = Some (i, r) ∧
       check_not_null t (schema tb) (apply_update now (schema tb) sets r) = Ok () ∧
       check_unique t (schema tb) (delete i (rows tb))
         (apply_update now (schema tb) sets r) = Ok () ∧
       db' = <[t := mkTable (schema tb)
                      (<[i := apply_update now (schema tb) sets r]> (rows tb))
                      (sequence tb)]> db).
Proof.
  unfold update_row. destruct (db !! t) as [tb|]; [|done].
  intros H. exists tb. split; [done|].
  destruct (_ ;; _) as [[]|]; [|done].
  destruct (list_find _ (rows tb)) as [[i r]|]; [|left; split; congruence].
  right. exists i, r. split; [done|]. unfold check_constraints in H.
  destruct (check_not_null _ _ _) as [[]|] eqn:E1; [simpl in H|done].
  destruct (check_unique _ _ _ _) as [[]|] eqn:E2; [simpl in H|done].
  destruct (check_foreign_keys _ _ _ _) as [[]|]; [simpl in H|done].
  destruct (check_referenced _ _ _ _ _) as [[]|]; [simpl in H|done].
  by injection H as <-.
Qed.


Lemma elem_of_insert_inv {A} (l : list A) i x y :
  y ∈ <[i:=x]> l → y = x ∨ y ∈ l.
Proof.
  revert i. induction l as [|a l IH]; intros [|i]; simpl.
  - by intros ?%elem_of_nil.
  - by intros ?%elem_of_nil.
  - rewrite !elem_of_cons. tauto.
  - rewrite !elem_of_cons. intros [->|H]; [auto|]. destruct (IH _ H); auto.
Qed.

Lemma NoDup_insert {A} (l : list A) i x :
  NoDup l → x ∉ delete i l → NoDup (<[i:=x]> l).
Proof.
  revert i. induction l as [|a l IH]; intros [|i] Hnd Hx; simpl in *; try done.
  - apply NoDup_cons in Hnd as [_ Hnd]. by apply NoDup_cons.
  - apply NoDup_cons in Hnd as [Ha Hnd].
    apply not_elem_of_cons in Hx as [Hne Hx].
    apply NoDup_cons. split; [|by apply IH].
    intros [->|?]%elem_of_insert_inv; done.
Qed.
End Updating.


(** ** Identities *)

Section Identities.
Variable load : ModuleLoad.
Implicit Types (db : Database) (vals : Values) (m : Model).

Lemma column_insert_eq db t tb k :
  column (<[t := tb]> db) t k = (λ r : Row, r !! k) <$> rows tb.
Proof. unfold column. by rewrite table_rows_insert. Qed.

Lemma column_insert_ne db t t' tb k :
  t' ≠ t → column (<[t' := tb]> db) t k = column db t k.
Proof. intros Hne. unfold column, table_rows. by rewrite lookup_insert_ne. Qed.

Lemma next_id_insert_ne db t t' tb :
  t' ≠ t → next_id (<[t' := tb]> db) t = next_id db t.
Proof. intros Hne. unfold next_id. by rewrite lookup_insert_ne. Qed.

(** A row that passed the uniqueness check shares its [id] with no row it
    was checked against. *)
Lemma id_not_taken m t (others : list Row) (r : Row) v :
  m ∈ metadata load →
  check_unique t (columns m) others r = Ok () → r !! "id" = Some v →
  Some v ∉ (λ o : Row, o !! "id") <$> others.
Proof.
  intros Hm Hu Hv (o & Hov & Ho)%list_elem_of_fmap.
  apply (proj1 (check_unique_Ok _ _ _ _) Hu BaseModel_id v o);
    eauto using BaseModel_id_column.
Qed.

Lemma id_not_null m t (r : Row) :
  m ∈ metadata load → check_not_null t (columns m) r = Ok () → is_Some (r !! "id").
Proof.
  intros Hm Hnn.
  apply (proj1 (check_not_null_Ok _ _ _) Hnn BaseModel_id);
    eauto using BaseModel_id_column.
Qed.

(** A row whose [id] is taken fails the uniqueness check on [id], the
    first key that is checked. *)
Lemma check_unique_id m t (others : list Row) (r : Row) v :
  m ∈ metadata load → r !! "id" = Some v →
  Some v ∈ (λ o : Row, o !! "id") <$> others →
  check_unique t (columns m) others r = Raise (IntegrityError UniqueViolation t "id").
Proof.
  intros Hm Hv (o & Hov & Ho)%list_elem_of_fmap.
  destruct (columns_BaseModel load m Hm) as [own ->].
  unfold check_unique, BaseModel. cbn [app find].
  assert (existsb (holds "id" v) others = true) as Hex
    by (apply existsb_holds; eauto).
  cbn [name BaseModel_id]. rewrite Hv, Hex. reflexivity.
Qed.





Lemma table_rows_drawn db t tb vals t' :
  db !! t = Some tb → table_rows (<[t := drawn tb vals]> db) t' = table_rows db t'.
Proof.
  intros Htb. unfold table_rows. destruct (decide (t = t')) as [<-|Hne].
  - by rewrite lookup_insert_eq, Htb.
  - by rewrite lookup_insert_ne.
Qed.

End Identities.

(** ** References to departments *)

Section References.
Variable load : ModuleLoad.
Implicit Types (db : Database) (vals : Values) (m : Model).

(** The only key of a dependent table is [id]. *)
Lemma check_unique_dependent m cname k t (others : list Row) (r : Row) :
  m ∈ metadata load → (tablename m, cname, k) ∈ department_references →
  r !! "id" ∉ (λ o : Row, o !! "id") <$> others →
  check_unique t (columns m) others r = Ok ().
Proof.
  intros Hm Href Hid. apply check_unique_Ok. intros c' v' o Hc' Hkey Hv' Ho Hov.
  destruct (unique_columns load m c' Hm Hc' Hkey) as [Hcid|[Hdep' _]];
    [|by destruct (dependent_not_Department load m cname k Href)].
  rewrite Hcid in Hv', Hov. apply Hid. rewrite Hv', <- Hov.
  by apply list_elem_of_fmap_2.
Qed.

(** C6 (amended).  Inserting a Customer, Course, Vacancy or News row whose
    department reference names no existing Department never succeeds and
    stores no row in any table.  The exception is the foreign-key
    violation on the referring column when the insertion is admissible and
    its [id] is not taken (the sequence has then moved if the insertion left
    [id] out); it is the uniqueness violation on [id] when the insertion
    is admissible and its [id] is taken, and the error of the earlier
    check when the insertion is not admissible. *)
Theorem dangling_department_rejected m cname k now vals v seq db :
  m ∈ metadata load →
  (tablename m, cname, k) ∈ department_references →
  table_schema db (tablename m) = Some (columns m) →
  table_schema db "department" = Some (columns (Department load)) →
  next_id db (tablename m) = Some seq →
  vals !! cname = Some (Some v) →
  Some v ∉ column db "department" k →
  let result := transaction (execute now (Insert (tablename m) vals)) db in
  result.2 ≠ None ∧
  (∀ t, table_rows result.1 t = table_rows db t) ∧
  (admissible (columns m) seq vals →
   row_id seq vals ∉ column db (tablename m) "id" →
     result.2 = Some (IntegrityError ForeignKeyViolation (tablename m) cname) ∧
     next_id result.1 (tablename m) =
       Some (if decide (vals !! "id" = None) then seq + 1 else seq)) ∧
  (admissible (columns m) seq vals →
   row_id seq vals ∈ column db (tablename m) "id" →
     result.2 = Some (IntegrityError UniqueViolation (tablename m) "id")) ∧
  (¬ admissible (columns m) seq vals →
     ∃ e, result.2 = Some e ∧ refused_early (tablename m) e).
Proof.
  intros Hm Href Hs Hd Hseq Hv Hmissing. cbv zeta.
  destruct (department_reference_column load m cname k Hm Href)
    as (c & Hc & Hname & Hfk & _ & _ & Honly).
  destruct (table_of _ _ _ _ Hs Hseq) as (tb & Htb & Hcols & Hq).
  apply table_schema_Some in Hd as (dep & Hdep & _).
  pose proof (columns_NoDup load m Hm) as Hnd.
  assert (column db (tablename m) "id" = (λ r : Row, r !! "id") <$> rows tb) as Hcol
    by (unfold column; by rewrite (table_rows_lookup _ _ _ Htb)).
  assert (fill (columns m) seq vals !! name c = Some v) as Hstored.
  { rewrite (lookup_fill_given load) by done. by rewrite Hname, Hv. }
  assert (check_foreign_keys db (tablename m) (columns m) (fill (columns m) seq vals) =
            Raise (IntegrityError ForeignKeyViolation (tablename m) cname)) as Hfks.
  { destruct (check_foreign_keys _ _ _ _) as [[]|e] eqn:E.
    - exfalso.
      destruct (proj1 (check_foreign_keys_Ok _ _ _ _) E c _ _ v Hc Hfk Hstored)
        as (parent & p & Hparent & Hp & Hpk).
      apply Hmissing, elem_of_column. exists p.
      by rewrite (table_rows_lookup _ _ _ Hparent).
    - apply check_foreign_keys_Raise in E
        as (c' & t' & k' & v' & Hc' & Hfk' & _ & Hwhy).
      assert (c' = c) as -> by (apply Honly; [done|by eexists]).
      rewrite Hfk in Hfk'. injection Hfk' as <- <-.
      destruct Hwhy as [[Hnone _]| ->]; [congruence|]. by rewrite Hname. }
  assert (admissible (columns m) seq vals →
          row_id seq vals ∉ column db (tablename m) "id" →
          transaction (execute now (Insert (tablename m) vals)) db =
            (<[tablename m := drawn tb vals]> db,
             Some (IntegrityError ForeignKeyViolation (tablename m) cname))) as Hfree.
  { intros Ha Hid.
    rewrite (transaction_insert_admissible _ _ _ _ _ Htb) by (by rewrite ?Hcols, ?Hq).
    rewrite Hcols, Hq.
    rewrite (check_unique_dependent m cname k), Hfks;
      [done..|]. by rewrite (id_stored load), <- Hcol. }
  assert (admissible (columns m) seq vals →
          row_id seq vals ∈ column db (tablename m) "id" →
          transaction (execute now (Insert (tablename m) vals)) db =
            (<[tablename m := drawn tb vals]> db,
             Some (IntegrityError UniqueViolation (tablename m) "id"))) as Htaken.
  { intros Ha Hid.
    rewrite (transaction_insert_admissible _ _ _ _ _ Htb) by (by rewrite ?Hcols, ?Hq).
    rewrite Hcols, Hq.
    assert (is_Some (row_id seq vals)) as [i Hi].
    { rewrite <- (id_stored load m) by done.
      apply (admissible_iff (tablename m)) in Ha as (_ & _ & Hnn); [|done].
      by apply (id_not_null load m _ _ Hm Hnn). }
    rewrite (check_unique_id load m _ _ _ i); [done..| |].
    - by rewrite (id_stored load).
    - by rewrite <- Hcol, <- Hi. }
  assert (¬ admissible (columns m) seq vals →
          ∃ e, (transaction (execute now (Insert (tablename m) vals)) db).2 = Some e ∧
               refused_early (tablename m) e) as Hnot.
  { intros Hn. apply (transaction_insert_refused _ _ _ _ _ Htb);
      by rewrite ?Hcols, ?Hq. }
  assert ((transaction (execute now (Insert (tablename m) vals)) db).2 ≠ None) as Hfail.
  { destruct (decide (admissible (columns m) seq vals)) as [Ha|Hn].
    - destruct (decide (row_id seq vals ∈ column db (tablename m) "id")) as [Hid|Hid].
      + by rewrite (Htaken Ha Hid).
      + by rewrite (Hfree Ha Hid).
    - destruct (Hnot Hn) as (e & -> & _). done. }
  split; [done|]. split; [intros t; by apply transaction_rows|].
  split; [|split; [|done]].
  - intros Ha Hid. rewrite (Hfree Ha Hid). cbn [fst snd]. split; [done|].
    by apply (next_id_drawn load m).
  - intros Ha Hid. by rewrite (Htaken Ha Hid).
Qed.

(** C10 (amended).  The column of a dependent table that refers to
    Department is nullable, and a row whose department reference is NULL
    is accepted: an admissible insertion that leaves the reference out, or
    sets it to NULL, and whose [id] is not taken is stored, with NULL in
    the referring column.  Of the other fields that the specification
    lists as required, all are declared NOT NULL but the time of a
    Customer, which is declared nullable. *)
Theorem null_department_accepted m cname k now vals seq db :
  m ∈ metadata load →
  (tablename m, cname, k) ∈ department_references →
  table_schema db (tablename m) = Some (columns m) →
  next_id db (tablename m) = Some seq →
  given vals cname = None →
  admissible (columns m) seq vals →
  row_id seq vals ∉ column db (tablename m) "id" →
  declared_nullable (metadata load) (tablename m, cname) = Some true ∧
  Forall (λ f, declared_nullable (metadata load) f =
                 Some (bool_decide (f = ("customer", "time"))))
         spec_required_fields ∧
  (transaction (execute now (Insert (tablename m) vals)) db).2 = None ∧
  column (transaction (execute now (Insert (tablename m) vals)) db).1 (tablename m) cname =
    column db (tablename m) cname ++ [None].
Proof.
  intros Hm Href Hs Hseq Hv Ha Hid.
  destruct (department_reference_column load m cname k Hm Href)
    as (c & Hc & Hname & Hfk & Hnullable & Hnodefault & Honly).
  destruct (table_of _ _ _ _ Hs Hseq) as (tb & Htb & Hcols & Hq).
  pose proof (columns_NoDup load m Hm) as Hnd.
  assert (column db (tablename m) "id" = (λ r : Row, r !! "id") <$> rows tb) as Hcol
    by (unfold column; by rewrite (table_rows_lookup _ _ _ Htb)).
  split; [|split].
  { clear -Hm Href. unfold department_references in Href.
    rewrite !elem_of_cons, elem_of_nil in Href.
    apply metadata_cases in Hm as [->|[->|[->|[->|[->| ->]]]]];
      cbn [tablename Reception Department Customer Course Vacancy News] in Href;
      repeat (destruct Href as [Href|Href]; [try discriminate Href|]); try done;
      injection Href as -> ->; vm_compute; reflexivity. }
  { unfold spec_required_fields.
    repeat (apply List.Forall_cons; [vm_compute; reflexivity|]). apply List.Forall_nil. }
  assert (fill (columns m) seq vals !! name c = None) as Hnull.
  { rewrite (lookup_fill_given load) by done. rewrite Hname.
    unfold given in Hv. destruct (vals !! cname) as [x|]; [exact Hv|].
    apply Hnodefault. }
  rewrite (transaction_insert_admissible _ _ _ _ _ Htb) by (by rewrite ?Hcols, ?Hq).
  rewrite Hcols, Hq.
  rewrite (check_unique_dependent m cname k);
    [|done..|by rewrite (id_stored load), <- Hcol].
  assert (check_foreign_keys db (tablename m) (columns m) (fill (columns m) seq vals) =
            Ok ()) as ->.
  { apply check_foreign_keys_Ok. intros c' t' k' v' Hc' Hfk' Hv'.
    assert (c' = c) as -> by (apply Honly; [done|by eexists]). congruence. }
  change (Ok () ;; ?x) with x. cbn [fst snd]. split; [done|].
  rewrite (column_after_insert _ _ _ _ _ Htb), Hcols, Hq.
  by rewrite <- Hname, Hnull.
Qed.
End References.


(** ** Timestamps under updates *)

Section Timestamps.
Variable load : ModuleLoad.
Implicit Types (db : Database) (m : Model).

Lemma BaseModel_after_update m now sets (r : Row) :
  m ∈ metadata load →
  sets !! "id" = None → sets !! "created_at" = None → sets !! "updated_at" = None →
  (λ k, apply_update now (columns m) sets r !! k) <$> ["id"; "created_at"; "updated_at"] =
    [r !! "id"; r !! "created_at"; Some (VTime now)].
Proof.
  intros Hm Hid Hc Hu. cbn [fmap list_fmap].
  change "id" with (name BaseModel_id) at 1.
  change "created_at" with (name (BaseModel_created_at load)) at 1.
  change "updated_at" with (name (BaseModel_updated_at load)) at 1.
  rewrite !lookup_apply_update;
    try (by apply (columns_NoDup load));
    try (apply (BaseModel_columns load); [done|];
         unfold BaseModel; rewrite !elem_of_cons; by auto).
  cbn [name BaseModel_id BaseModel_created_at BaseModel_updated_at].
  by rewrite Hid, Hc, Hu.
Qed.

(** C7 (amended).  An accepted update of a row that assigns to none of
    [id], [created_at] and [updated_at] sets the row's [updated_at] to the
    reading of the clock at the update and leaves its [created_at] alone,
    whatever that reading is; the new [updated_at] is strictly later than
    [created_at] and than the former [updated_at] whenever that reading
    is. *)
Theorem updated_at_refreshed m now k sets db c u :
  m ∈ metadata load →
  table_schema db (tablename m) = Some (columns m) →
  NoDup (column db (tablename m) "id") →
  [Some (VInt k); Some (VTime c); Some (VTime u)] ∈
    select db (tablename m) ["id"; "created_at"; "updated_at"] →
  sets !! "id" = None → sets !! "created_at" = None → sets !! "updated_at" = None →
  (transaction (execute now (Update (tablename m) k sets)) db).2 = None →
  [Some (VInt k); Some (VTime c); Some (VTime now)] ∈
    select (transaction (execute now (Update (tablename m) k sets)) db).1
      (tablename m) ["id"; "created_at"; "updated_at"] ∧
  (c < now → u < now →
   ∃ u', [Some (VInt k); Some (VTime c); Some (VTime u')] ∈
           select (transaction (execute now (Update (tablename m) k sets)) db).1
             (tablename m) ["id"; "created_at"; "updated_at"] ∧
         c < u' ∧ u < u').
Proof.
  intros Hm Hs Hnd Hrow Hid Hc Hu Hok.
  assert ([Some (VInt k); Some (VTime c); Some (VTime now)] ∈
            select (transaction (execute now (Update (tablename m) k sets)) db).1
              (tablename m) ["id"; "created_at"; "updated_at"]) as Hnew;
    [|split; [exact Hnew|intros; exists now; by repeat split]].
  apply table_schema_Some in Hs as (tb & Htb & Hcols).
  unfold select in Hrow. rewrite (table_rows_lookup _ _ _ Htb) in Hrow.
  apply list_elem_of_fmap in Hrow as (o & Hproj & Ho).
  cbn [fmap list_fmap] in Hproj. injection Hproj as Hoid Hoc Hou.
  apply list_elem_of_lookup in Ho as [j Hj].
  apply transaction_committed in Hok. cbn [execute] in Hok.
  destruct (transaction _ db) as [out e]. cbn [fst snd] in *.
  apply update_row_Ok in Hok as (tb' & Htb' & Hcase).
  rewrite Htb in Htb'. injection Htb' as <-.
  destruct Hcase as [[Hnone _]|(i & r & Hfind & _ & _ & ->)].
  { apply list_find_None in Hnone. rewrite Forall_forall in Hnone.
    destruct (Hnone o); [by apply list_elem_of_lookup_2 with j|done]. }
  apply list_find_Some in Hfind as (Hi & Hrid & _).
  assert (i = j) as ->.
  { unfold column in Hnd. rewrite (table_rows_lookup _ _ _ Htb) in Hnd.
    apply (NoDup_lookup _ i j (Some (VInt k)) Hnd);
      rewrite list_lookup_fmap; [by rewrite Hi; cbn; rewrite Hrid|].
    by rewrite Hj; cbn; rewrite <- Hoid. }
  rewrite Hj in Hi. injection Hi as <-.
  unfold select. rewrite table_rows_insert. cbn [rows].
  apply list_elem_of_fmap.
  exists (apply_update now (schema tb) sets o). split.
  - rewrite Hcols, (BaseModel_after_update m) by done. by rewrite <- Hoid, <- Hoc.
  - apply list_elem_of_insert. by apply lookup_lt_Some with o.
Qed.
End Timestamps.

(** * Counterexamples and instances *)

(** Closed decidable statements are settled by evaluation. *)
Ltac by_evaluation := apply (bool_decide_unpack _); vm_compute; exact I.



(** C6 (counterexample).  In the seeded store a Vacancy that refers to the
    department 9, which does not exist, and gives nothing else is rejected
    with the NOT NULL violation of [vacancy_type], not with a foreign-key
    error. *)
Lemma dangling_reference_not_always_foreign_key_error :
  ¬ dangling_reference_is_foreign_key_error.
Proof.
  intros H.
  pose proof (H (mkLoad 10 11) (Vacancy (mkLoad 10 11)) "department_id" "id" 20
                (values [("department_id", Some (VInt 9))]) (VInt 9)
                (seeded (mkLoad 10 11))) as Hfk.
  assert ((transaction
             (execute 20 (Insert "vacancy" (values [("department_id", Some (VInt 9))])))
             (seeded (mkLoad 10 11))).2 =
          Some (IntegrityError NotNullViolation "vacancy" "vacancy_type")) as Hnn
    by (vm_compute; reflexivity).
  cbn [tablename Vacancy] in Hfk. rewrite Hnn in Hfk.
  assert (Some (IntegrityError NotNullViolation "vacancy" "vacancy_type") ≠
          Some (IntegrityError ForeignKeyViolation "vacancy" "department_id")) as Hne
    by discriminate.
  apply Hne, Hfk.
  - by_evaluation.
  - by_evaluation.
  - vm_compute. reflexivity.
  - vm_compute. reflexivity.
  - reflexivity.
  - by_evaluation.
Qed.

(** C10 (counterexample).  The time of a Customer, which the specification
    lists as a required field, is declared with [nullable=True]. *)
Lemma customer_time_is_optional : ¬ only_the_department_is_optional.
Proof.
  intros H. destruct (H (mkLoad 10 11)) as [_ Hrequired].
  rewrite Forall_forall in Hrequired.
  specialize (Hrequired ("customer", "time")).
  assert (declared_nullable (metadata (mkLoad 10 11)) ("customer", "time") = Some true)
    as Htime by (vm_compute; reflexivity).
  rewrite Htime in Hrequired.
  assert (Some true ≠ Some false) as Hne by discriminate.
  apply Hne, Hrequired. unfold spec_required_fields. rewrite !elem_of_cons. auto.
Qed.

(** C7 (counterexample).  A Reception row inserted with a [created_at] of
    100 and updated when the clock reads 50 ends with an [updated_at] of 50,
    which is not later than its [created_at]. *)
Lemma updated_at_not_always_later : ¬ updated_at_always_later.
Proof.
  intros H.
  destruct (H (mkLoad 10 11) (Reception (mkLoad 10 11)) 50 1
              {["apply" := Some (VInt 2)]}
              (transaction
                 (execute 20 (Insert "reception"
                                (values [("created_at", Some (VTime 100))])))
                 (create_all (metadata (mkLoad 10 11)) ∅)).1
              100 11) as (u' & Hin & Hc & _).
  - by_evaluation.
  - vm_compute. reflexivity.
  - by_evaluation.
  - by_evaluation.
  - by_evaluation.
  - reflexivity.
  - reflexivity.
  - reflexivity.
  - vm_compute. reflexivity.
  - vm_compute in Hin. apply list_elem_of_singleton in Hin. injection Hin as ->. lia.
Qed.


(** Instances of the theorems above on small stores: a process that loaded
    the module when the clock read 10 and 11 creates the tables or runs the
    seed script. *)

Lemma departments_after_bootstrap_witness :
  let load := mkLoad 10 11 in
  (recreate_database load 20 None old_store).2 = None ∧
  select (recreate_database load 20 None old_store).1 "department"
    ["id"; "department_name"] =
    [ [Some (VInt 1); Some (VStr "Python")];
      [Some (VInt 2); Some (VStr "System Administrator")];
      [Some (VInt 3); Some (VStr "Javascript")];
      [Some (VInt 4); Some (VStr "Java")] ].
Proof.
  intros load.
  apply (departments_after_bootstrap load 20 old_store {["alembic_version" := other_table]}).
  vm_compute. reflexivity.
Defined.

Lemma courses_after_bootstrap_witness :
  let load := mkLoad 10 11 in
  (recreate_database load 20 None ∅).2 = None ∧
  select (recreate_database load 20 None ∅).1 "course"
    ["id"; "department_id"; "department_info"] =
    [ [Some (VInt 1); Some (VInt 1); Some (VStr python_course_text)] ].
Proof.
  intros load. apply (courses_after_bootstrap load 20 ∅ ∅). reflexivity.
Defined.

Lemma seed_stages_not_atomic_witness :
  let load := mkLoad 10 11 in
  let failed_execute := recreate_database load 20 (Some session_execute) old_store in
  let failed_commit := recreate_database load 20 (Some session_commit) old_store in
  let four_departments :=
    [ [Some (VInt 1); Some (VStr "Python")];
      [Some (VInt 2); Some (VStr "System Administrator")];
      [Some (VInt 3); Some (VStr "Javascript")];
      [Some (VInt 4); Some (VStr "Java")] ] in
  (failed_execute.2 = Some OperationalError ∧
   select failed_execute.1 "department" ["id"; "department_name"] = four_departments ∧
   table_rows failed_execute.1 "course" = []) ∧
  (failed_commit.2 = Some OperationalError ∧
   select failed_commit.1 "department" ["id"; "department_name"] = four_departments ∧
   table_rows failed_commit.1 "course" = []).
Proof.
  intros load.
  apply (seed_stages_not_atomic load 20 old_store {["alembic_version" := other_table]}).
  vm_compute. reflexivity.
Defined.

Lemma created_at_is_the_load_time_witness :
  let load := mkLoad 10 11 in
  let db := create_all (metadata load) ∅ in
  column (transaction (execute 20 (Insert (tablename (Reception load)) ∅)) db).1
    (tablename (Reception load)) "created_at" =
  column db (tablename (Reception load)) "created_at" ++
    [Some (VTime (created_at_now load))].
Proof.
  intros load db. apply created_at_is_the_load_time.
  - by_evaluation.
  - vm_compute. reflexivity.
  - reflexivity.
  - vm_compute. reflexivity.
Defined.


Lemma dangling_department_rejected_witness :
  let load := mkLoad 10 11 in
  let vals := values [("department_info", Some (VStr "Go"));
                      ("department_id", Some (VInt 9))] in
  let m := Course load in
  let result := transaction (execute 20 (Insert (tablename m) vals)) (seeded load) in
  result.2 ≠ None ∧
  (∀ t, table_rows result.1 t = table_rows (seeded load) t) ∧
  (admissible (columns m) 2 vals →
   row_id 2 vals ∉ column (seeded load) (tablename m) "id" →
     result.2 = Some (IntegrityError ForeignKeyViolation (tablename m) "department_id") ∧
     next_id result.1 (tablename m) =
       Some (if decide (vals !! "id" = None) then 2 + 1 else 2)) ∧
  (admissible (columns m) 2 vals →
   row_id 2 vals ∈ column (seeded load) (tablename m) "id" →
     result.2 = Some (IntegrityError UniqueViolation (tablename m) "id")) ∧
  (¬ admissible (columns m) 2 vals →
     ∃ e, result.2 = Some e ∧ refused_early (tablename m) e).
Proof.
  intros load vals m.
  apply (dangling_department_rejected load m "department_id" "id" 20 vals (VInt 9) 2).
  - by_evaluation.
  - by_evaluation.
  - vm_compute. reflexivity.
  - vm_compute. reflexivity.
  - vm_compute. reflexivity.
  - reflexivity.
  - by_evaluation.
Defined.

Lemma null_department_accepted_witness :
  let load := mkLoad 10 11 in
  let m := Course load in
  let vals := values [("department_info", Some (VStr "Go")); ("department_id", None)] in
  declared_nullable (metadata load) (tablename m, "department_id") = Some true ∧
  Forall (λ f, declared_nullable (metadata load) f =
                 Some (bool_decide (f = ("customer", "time"))))
         spec_required_fields ∧
  (transaction (execute 20 (Insert (tablename m) vals)) (seeded load)).2 = None ∧
  column (transaction (execute 20 (Insert (tablename m) vals)) (seeded load)).1
    (tablename m) "department_id" =
  column (seeded load) (tablename m) "department_id" ++ [None].
Proof.
  intros load m vals.
  apply (null_department_accepted load m "department_id" "id" 20 vals 2).
  - by_evaluation.
  - by_evaluation.
  - vm_compute. reflexivity.
  - vm_compute. reflexivity.
  - reflexivity.
  - by_evaluation.
  - by_evaluation.
Defined.


Lemma updated_at_refreshed_witness :
  let load := mkLoad 10 11 in
  let m := Reception load in
  let db := (transaction (execute 20 (Insert "reception" ∅))
               (create_all (metadata load) ∅)).1 in
  let sets : Values := {["apply" := Some (VInt 2)]} in
  [Some (VInt 1); Some (VTime 10); Some (VTime 5)] ∈
    select (transaction (execute 5 (Update (tablename m) 1 sets)) db).1
      (tablename m) ["id"; "created_at"; "updated_at"] ∧
  (10 < 5 → 11 < 5 →
   ∃ u', [Some (VInt 1); Some (VTime 10); Some (VTime u')] ∈
           select (transaction (execute 5 (Update (tablename m) 1 sets)) db).1
             (tablename m) ["id"; "created_at"; "updated_at"] ∧
         10 < u' ∧ 11 < u').
Proof.
  intros load m db sets. apply (updated_at_refreshed load m 5 1 sets db 10 11).
  - by_evaluation.
  - vm_compute. reflexivity.
  - by_evaluation.
  - by_evaluation.
  - reflexivity.
  - reflexivity.
  - reflexivity.
  - vm_compute. reflexivity.
Defined.


(** * Further properties of the seed script *)

Section ScriptMore.
Variables (load : ModuleLoad) (now : Z).
Implicit Types db : Database.

Lemma insert_row_other t vals db k :
  k ≠ t → (insert_row t vals db).1 !! k = db !! k.
Proof.
  intros Hne. destruct (insert_row t vals db) as [d [e|]] eqn:E; cbn [fst].
  - apply insert_row_rejected in E
      as [(_ & -> & _)|(tb & _ & [(-> & _)|(-> & _)])]; [done..|].
    by rewrite lookup_insert_ne.
  - apply insert_row_accepted in E as (tb & _ & _ & _ & _ & ->).
    by rewrite lookup_insert_ne.
Qed.

Lemma flush_other t objects db k :
  k ≠ t → (flush t objects db).1 !! k = db !! k.
Proof.
  intros Hne. revert db. induction objects as [|o os IH]; intros db; cbn [flush].
  - done.
  - pose proof (insert_row_other t (Some <$> o) db k Hne) as Hins.
    destruct (insert_row t (Some <$> o) db) as [db1 [e|]]; cbn [fst] in *; [done|].
    by rewrite IH.
Qed.

Lemma script_states_undeclared t :
  t ∉ tablename <$> metadata load →
  create_all (metadata load) ∅ !! t = None ∧
  with_departments load !! t = None ∧ commit_failed load !! t = None ∧
  seeded load !! t = None.
Proof.
  intros Ht.
  assert (create_all (metadata load) ∅ !! t = None) as Hnone.
  { apply eq_None_not_Some. by rewrite <- lookup_create_all_empty. }
  assert (t ≠ "department" ∧ t ≠ "course") as [Hd Hc].
  { split; intros ->; apply Ht; cbn [fmap list_fmap metadata];
      rewrite !elem_of_cons; cbn; auto 10. }
  assert (with_departments load !! t = None) as Hw.
  { rewrite <- Hnone. pose proof (script_departments load) as H.
    apply (f_equal fst) in H. cbn [fst] in H. rewrite <- H.
    by apply flush_other. }
  split; [done|]. split; [done|]. split.
  - rewrite <- script_commit_failed, lookup_rollback, Hw. reflexivity.
  - rewrite <- Hw. pose proof (script_course load) as H.
    apply (f_equal fst) in H. cbn [fst] in H. rewrite <- H.
    by apply insert_row_other.
Qed.

(** The script touches the declared tables only: a table of the store that
    the schema does not declare is as it was when the script ends, whether
    the script completes or is cut short at any of its waits. *)
Theorem undeclared_tables_untouched fault db t :
  t ∉ tablename <$> metadata load →
  (recreate_database load now fault db).1 !! t = db !! t.
Proof.
  intros Ht. destruct (script_states_undeclared t Ht) as (Hc & Hw & Hf & Hs).
  destruct (decide (fault = Some connection_run_sync)) as [->|Hfault];
    [by rewrite recreate_database_unreachable|].
  destruct (drop_all (metadata load) db) as [d|e] eqn:Hdrop.
  - rewrite (recreate_database_Ok _ _ _ _ _ Hdrop).
    destruct fault as [[]|]; cbn [fst];
      [reflexivity|apply lookup_union_r; assumption..].
  - by rewrite (recreate_database_Raise _ _ _ _ _ Hfault Hdrop).
Qed.

(** A complete run destroys what the declared tables held: on a store
    whose tables can be dropped, the tables of Reception, Customer, Vacancy
    and News are empty afterwards and their sequences are back at 1. *)
Theorem bootstrap_empties_other_tables db d :
  drop_all (metadata load) db = Ok d →
  Forall (λ t, table_rows (recreate_database load now None db).1 t = [] ∧
               next_id (recreate_database load now None db).1 t = Some 1)
    ["reception"; "customer"; "vacancy"; "news"].
Proof.
  intros Hdrop. rewrite (recreate_database_Ok _ _ _ _ _ Hdrop). cbn [fst].
  assert (∀ t, t ∈ ["reception"; "customer"; "vacancy"; "news"] →
               ∃ tb, seeded load !! t = Some tb ∧ rows tb = [] ∧ sequence tb = 1)
    as Hempty.
  { intros t Ht. rewrite !elem_of_cons, elem_of_nil in Ht.
    assert (from_option (λ tb, bool_decide (rows tb = []) && bool_decide (sequence tb = 1))
              false (seeded load !! t) = true) as Hok.
    { destruct Ht as [->|[->|[->|[->|[]]]]]; vm_compute; reflexivity. }
    destruct (seeded load !! t) as [tb|]; [|discriminate Hok]. exists tb.
    cbn [from_option] in Hok.
    apply andb_true_iff in Hok as [H1%bool_decide_eq_true H2%bool_decide_eq_true].
    split; [reflexivity|]. split; assumption. }
  rewrite Forall_forall. intros t Ht.
  destruct (Hempty t Ht) as (tb & Htb & Hrows & Hseq).
  clear Hempty. unfold table_rows, next_id.
  rewrite (lookup_union_Some_l _ _ _ _ Htb).
  cbn [from_option fmap option_fmap option_map]. rewrite Hrows, Hseq.
  split; reflexivity.
Qed.

(** The first two blocks of the script are each all or nothing.  If the
    first block fails, because the store cannot be reached or because a
    table cannot be dropped, nothing changes; if the store fails while the
    departments are flushed or committed, the declared tables exist and
    are all empty: no Department row is kept. *)
Theorem first_stages_all_or_nothing db :
  recreate_database load now (Some connection_run_sync) db =
    (db, Some OperationalError) ∧
  (∀ e, drop_all (metadata load) db = Raise e →
     recreate_database load now None db = (db, Some e)) ∧
  (∀ d, drop_all (metadata load) db = Ok d →
     (recreate_database load now (Some session_begin_exit) db).2 =
       Some OperationalError ∧
     Forall (λ t, is_Some
                    ((recreate_database load now (Some session_begin_exit) db).1 !! t) ∧
                  table_rows
                    (recreate_database load now (Some session_begin_exit) db).1 t = [])
       (tablename <$> metadata load)).
Proof.
  split; [apply recreate_database_unreachable|]. split.
  { intros e Hdrop. by apply recreate_database_Raise. }
  intros d Hdrop. rewrite !(recreate_database_Ok _ _ _ _ _ Hdrop). cbn [fst snd].
  split; [reflexivity|].
  rewrite Forall_forall. intros t Ht.
  destruct (proj1 (lookup_create_all_empty _ _) Ht) as [tb Htb].
  unfold table_rows. rewrite (lookup_union_Some_l _ _ _ _ Htb).
  split; [eexists; reflexivity|].
  assert (from_option (λ tb, bool_decide (rows tb = [])) false
            (create_all (metadata load) ∅ !! t) = true) as Hok.
  { cbn [fmap list_fmap metadata] in Ht. rewrite !elem_of_cons, elem_of_nil in Ht.
    destruct Ht as [->|[->|[->|[->|[->|[->|[]]]]]]]; vm_compute; reflexivity. }
  rewrite Htb in Hok. cbn [from_option] in Hok.
  apply bool_decide_eq_true in Hok. exact Hok.
Qed.

(** Every row the script inserts carries the two clock readings taken when
    its process loaded the module, however long the script then ran. *)
Theorem seeded_rows_carry_load_time db d :
  drop_all (metadata load) db = Ok d →
  select (recreate_database load now None db).1 "department"
    ["created_at"; "updated_at"] =
    replicate 4 [Some (VTime (created_at_now load)); Some (VTime (updated_at_now load))] ∧
  select (recreate_database load now None db).1 "course"
    ["created_at"; "updated_at"] =
    [[Some (VTime (created_at_now load)); Some (VTime (updated_at_now load))]].
Proof.
  intros Hdrop. rewrite (recreate_database_Ok _ _ _ _ _ Hdrop). cbn [fst].
  rewrite !select_union_l by (apply seeded_has; repeat constructor).
  split; vm_compute; reflexivity.
Qed.
End ScriptMore.

(** * When an insertion is accepted *)

Section Acceptance.
Variable load : ModuleLoad.
Implicit Types (db : Database) (vals : Values) (m : Model).

(** The keys of the declared tables: [id], and the name of a
    Department. *)
Lemma check_unique_declared m t (others : list Row) (r : Row) :
  m ∈ metadata load →
  check_unique t (columns m) others r = Ok () ↔
  (∀ v, r !! "id" = Some v → Some v ∉ (λ o : Row, o !! "id") <$> others) ∧
  (m = Department load → ∀ v, r !! "department_name" = Some v →
     Some v ∉ (λ o : Row, o !! "department_name") <$> others).
Proof.
  intros Hm. split.
  - intros Hu. split.
    + intros v Hv. by apply (id_not_taken load m t _ _ _ Hm Hu).
    + intros -> v Hv (o & Hov & Ho)%list_elem_of_fmap.
      set (c := mkColumn "department_name" sa.String
                  [nullable false; unique true; comment "Programming language name"]).
      assert (c ∈ columns (Department load)) as Hc.
      { cbn [columns Department]. apply elem_of_app. right.
        by apply list_elem_of_singleton. }
      by apply (proj1 (check_unique_Ok _ _ _ _) Hu c v o Hc eq_refl).
  - intros [Hid Hname]. apply check_unique_Ok. intros c v o Hc Hu Hv Ho Hov.
    destruct (unique_columns load m c Hm Hc Hu) as [Hcid|[-> Hcn]].
    + rewrite Hcid in Hv, Hov. apply (Hid v Hv). rewrite <- Hov.
      by apply list_elem_of_fmap_2.
    + rewrite Hcn in Hv, Hov. apply (Hname eq_refl v Hv). rewrite <- Hov.
      by apply list_elem_of_fmap_2.
Qed.

(** The references of the declared tables: those to Department. *)
Lemma check_foreign_keys_declared m db t (r : Row) dep :
  m ∈ metadata load → db !! "department" = Some dep →
  check_foreign_keys db t (columns m) r = Ok () ↔
  ∀ cname k v, (tablename m, cname, k) ∈ department_references →
               r !! cname = Some v → Some v ∈ column db "department" k.
Proof.
  intros Hm Hdep. rewrite check_foreign_keys_Ok. split.
  - intros Hfk cname k v Href Hv.
    destruct (department_reference_column load m cname k Hm Href)
      as (c & Hc & Hn & Hfkc & _).
    destruct (Hfk c "department" k v Hc Hfkc) as (parent & p & Hparent & Hp & Hpk);
      [by rewrite Hn|].
    apply elem_of_column. exists p. by rewrite (table_rows_lookup _ _ _ Hparent).
  - intros Hrefs c t' k v Hc Hfkc Hv.
    destruct (foreign_key_columns load m c t' k Hm Hc Hfkc) as (-> & _ & Href).
    apply (Hrefs _ _ _ Href), elem_of_column in Hv as (p & Hp & Hpk).
    exists dep, p. by rewrite (table_rows_lookup _ _ _ Hdep) in Hp.
Qed.

(** An insertion into one of the six tables is accepted exactly when it
    is admissible, its [id] (given, or drawn from the sequence) is not
    taken, a Department's name is not taken, and each department reference
    it gives names an existing Department. *)
Theorem insertion_accepted_iff m now vals seq db :
  m ∈ metadata load →
  table_schema db (tablename m) = Some (columns m) →
  table_schema db "department" = Some (columns (Department load)) →
  next_id db (tablename m) = Some seq →
  (transaction (execute now (Insert (tablename m) vals)) db).2 = None ↔
  admissible (columns m) seq vals ∧
  (row_id seq vals ∉ column db (tablename m) "id") ∧
  (m = Department load → ∀ v, vals !! "department_name" = Some (Some v) →
     Some v ∉ column db "department" "department_name") ∧
  (∀ cname k v, (tablename m, cname, k) ∈ department_references →
     vals !! cname = Some (Some v) → Some v ∈ column db "department" k).
Proof.
  intros Hm Hs Hd Hseq.
  destruct (table_of _ _ _ _ Hs Hseq) as (tb & Htb & Hcols & Hq).
  apply table_schema_Some in Hd as (dep & Hdep & Hdcols).
  pose proof (columns_NoDup load m Hm) as Hnd.
  assert (∀ k, column db (tablename m) k = (λ r : Row, r !! k) <$> rows tb) as Hcol
    by (intros; unfold column; by rewrite (table_rows_lookup _ _ _ Htb)).
  destruct (decide (admissible (columns m) seq vals)) as [Ha|Hn].
  2:{ destruct (transaction_insert_refused now _ vals db tb Htb) as (e & He & _);
        [by rewrite ?Hcols, ?Hq..|].
      rewrite He. split; [done|]. by intros [? _]. }
  rewrite (transaction_insert_admissible _ _ _ _ _ Htb) by (by rewrite ?Hcols, ?Hq).
  rewrite Hcols, Hq.
  assert (is_Some (row_id seq vals)) as [i Hi].
  { rewrite <- (id_stored load m) by done.
    apply (admissible_iff (tablename m)) in Ha as (_ & _ & Hnn); [|done].
    by apply (id_not_null load m _ _ Hm Hnn). }
  assert (∀ c v, c ∈ columns m → fill (columns m) seq vals !! name c = Some v →
                 is_Some (get_foreign_key c) ∨ name c = "department_name" →
                 vals !! name c = Some (Some v)) as Hgiven.
  { intros c v Hc Hv Hwhy. rewrite (lookup_fill_given load) in Hv by done.
    destruct (vals !! name c) as [[x|]|] eqn:E; [congruence|done|]. exfalso.
    destruct Hwhy as [[[t' k'] Hfk]|Hname].
    - destruct (foreign_key_columns load m c t' k' Hm Hc Hfk) as (_ & _ & Href).
      destruct (department_reference_column load m _ _ Hm Href)
        as (c' & Hc' & Hn' & _ & _ & Hnodef & _).
      assert (c' = c) as -> by (by apply (NoDup_name_inj (columns m))).
      by rewrite Hnodef in Hv.
    - clear -Hm Hc Hname Hv.
      apply metadata_cases in Hm as [->|[->|[->|[->|[->| ->]]]]];
        simpl in Hc; rewrite !elem_of_cons, elem_of_nil in Hc;
        repeat (destruct Hc as [->|Hc]; [first [discriminate Hname|discriminate Hv]|]);
        done. }
  destruct (check_unique _ _ _ _) as [[]|e] eqn:Hu.
  - change (Ok () ;; ?x) with x.
    apply (check_unique_declared m) in Hu as [Hid Hname]; [|done].
    destruct (check_foreign_keys _ _ _ _) as [[]|e] eqn:Hfk; cbn [snd].
    + rewrite (check_foreign_keys_declared m _ _ _ dep) in Hfk by done.
      split; [intros _|done]. split; [done|]. split; [|split].
      * rewrite Hcol, Hi. apply Hid. by rewrite (id_stored load).
      * intros -> v Hv. cbn [tablename Department] in Hcol. rewrite Hcol.
        apply (Hname eq_refl). change "department_name" with
          (name (mkColumn "department_name" sa.String
                   [nullable false; unique true; comment "Programming language name"])).
        rewrite (lookup_fill_given load); [by cbn [name]; rewrite Hv|done|].
        cbn [columns Department]. apply elem_of_app. right.
        by apply list_elem_of_singleton.
      * intros cname k v Href Hv. apply (Hfk cname k v Href).
        destruct (department_reference_column load m cname k Hm Href)
          as (c & Hc & Hn & _).
        rewrite <- Hn, (lookup_fill_given load) by done. by rewrite Hn, Hv.
    + split; [done|]. intros (_ & _ & _ & Hrefs). exfalso.
      assert (check_foreign_keys db (tablename m) (columns m)
                (fill (columns m) seq vals) = Ok ()); [|congruence].
      apply (check_foreign_keys_declared m _ _ _ dep); [done..|].
      intros cname k v Href Hv.
      destruct (department_reference_column load m cname k Hm Href)
        as (c & Hc & Hn & Hfkc & _).
      apply (Hrefs cname k v Href). rewrite <- Hn in Hv |- *.
      apply Hgiven; [done..|]. left. by eexists.
  - change (Raise ?e ;; ?x) with (@Raise () e). cbn [snd].
    split; [done|]. intros (_ & Hid & Hname & _). exfalso.
    assert (check_unique (tablename m) (columns m) (rows tb)
              (fill (columns m) seq vals) = Ok ()); [|congruence].
    apply (check_unique_declared m); [done|]. split.
    + intros v Hv. rewrite (id_stored load) in Hv by done.
      rewrite <- Hcol, <- Hv. exact Hid.
    + intros -> v Hv. cbn [tablename Department] in Hcol. rewrite <- Hcol.
      apply (Hname eq_refl).
      set (c := mkColumn "department_name" sa.String
                  [nullable false; unique true; comment "Programming language name"]).
      assert (c ∈ columns (Department load)) as Hc.
      { cbn [columns Department]. apply elem_of_app. right.
        by apply list_elem_of_singleton. }
      apply (Hgiven c v Hc Hv). by right.
Qed.

(** The only column that draws from a sequence is [id], an [Integer]. *)
Lemma check_sequence_declared m t vals seq :
  m ∈ metadata load → fits sa.Integer (VInt seq) = true →
  check_sequence t (columns m) vals seq = Ok ().
Proof.
  intros Hm Hfits. apply check_sequence_Ok. intros c Hc Hd.
  unfold draws in Hd. apply andb_true_iff in Hd as [Hd _].
  apply andb_true_iff in Hd as [Hd _]. apply andb_true_iff in Hd as [Ha _].
  by rewrite (autoincrement_columns load m c Hm Hc Ha).
Qed.

(** An insertion that is well typed and gives no value for a required
    column is rejected with the NOT NULL violation of a column for which
    it gives no value, whatever else may be wrong with the row; no row is
    stored, and the sequence has moved if the insertion left [id] out. *)
Theorem missing_required_value_rejected m now vals k seq db :
  m ∈ metadata load →
  table_schema db (tablename m) = Some (columns m) →
  next_id db (tablename m) = Some seq →
  well_typed (columns m) vals →
  fits sa.Integer (VInt seq) = true →
  k ∈ required (columns m) →
  given vals k = None →
  let result := transaction (execute now (Insert (tablename m) vals)) db in
  (∃ k', k' ∈ not_null (columns m) ∧ given vals k' = None ∧
         result.2 = Some (IntegrityError NotNullViolation (tablename m) k')) ∧
  (∀ t, table_rows result.1 t = table_rows db t) ∧
  next_id result.1 (tablename m) =
    Some (if decide (vals !! "id" = None) then seq + 1 else seq).
Proof.
  intros Hm Hs Hseq Hwt Hfits Hk Hnone. cbv zeta.
  destruct (table_of _ _ _ _ Hs Hseq) as (tb & Htb & Hcols & Hq).
  pose proof (columns_NoDup load m Hm) as Hnd.
  rewrite (transaction_insert_sent _ _ _ _ _ Htb);
    [|by rewrite Hcols; apply check_values_Ok
     |by rewrite Hcols, Hq; apply (check_sequence_declared m)].
  rewrite Hcols, Hq. unfold check_constraints.
  destruct (check_not_null _ _ _) as [[]|e] eqn:Hnn.
  - exfalso. apply elem_of_required in Hk as (c & Hc & <- & Hn & Hdef).
    destruct (proj1 (check_not_null_Ok _ _ _) Hnn c Hc Hn) as [v Hv].
    rewrite (lookup_fill_given load) in Hv by done. unfold given in Hnone.
    destruct (vals !! name c) as [x|]; [cbn in Hnone; congruence|].
    by rewrite (has_default_any_seq 0 seq) in Hv.
  - change (Raise ?e ;; ?x) with (@Raise () e). cbn [fst snd].
    apply check_not_null_Raise in Hnn as (c & Hc & Hn & Hnull & ->).
    split; [|split].
    + exists (name c). split; [apply elem_of_not_null; by eauto|]. split; [|done].
      rewrite (lookup_fill_given load) in Hnull by done. unfold given.
      by destruct (vals !! name c) as [x|].
    + intros t. by apply table_rows_drawn.
    + by apply (next_id_drawn load m).
Qed.

(** An admissible insertion whose [id] some row of the table already has
    is rejected with the uniqueness violation of [id]; no row is stored. *)
Theorem taken_id_rejected m now vals seq db :
  m ∈ metadata load →
  table_schema db (tablename m) = Some (columns m) →
  next_id db (tablename m) = Some seq →
  admissible (columns m) seq vals →
  row_id seq vals ∈ column db (tablename m) "id" →
  let result := transaction (execute now (Insert (tablename m) vals)) db in
  result.2 = Some (IntegrityError UniqueViolation (tablename m) "id") ∧
  (∀ t, table_rows result.1 t = table_rows db t) ∧
  next_id result.1 (tablename m) =
    Some (if decide (vals !! "id" = None) then seq + 1 else seq).
Proof.
  intros Hm Hs Hseq Ha Hid. cbv zeta.
  destruct (table_of _ _ _ _ Hs Hseq) as (tb & Htb & Hcols & Hq).
  pose proof (columns_NoDup load m Hm) as Hnd.
  assert (column db (tablename m) "id" = (λ r : Row, r !! "id") <$> rows tb) as Hcol
    by (unfold column; by rewrite (table_rows_lookup _ _ _ Htb)).
  rewrite (transaction_insert_admissible _ _ _ _ _ Htb) by (by rewrite ?Hcols, ?Hq).
  rewrite Hcols, Hq.
  assert (is_Some (row_id seq vals)) as [i Hi].
  { rewrite <- (id_stored load m) by done.
    apply (admissible_iff (tablename m)) in Ha as (_ & _ & Hnn); [|done].
    by apply (id_not_null load m _ _ Hm Hnn). }
  rewrite (check_unique_id load m _ _ _ i);
    [|done|by rewrite (id_stored load)|by rewrite <- Hcol, <- Hi].
  change (Raise ?e ;; ?x) with (@Raise () e). cbn [fst snd].
  split; [done|]. split; [intros t; by apply table_rows_drawn|].
  by apply (next_id_drawn load m).
Qed.
End Acceptance.


(** * Defaults and keys *)

Section Defaults.
Variable load : ModuleLoad.
Implicit Types (db : Database) (vals : Values) (m : Model).

Lemma Reception_in_metadata : Reception load ∈ metadata load.
Proof. unfold metadata. rewrite !elem_of_cons. auto. Qed.

Lemma Reception_counter_default c seq :
  c ∈ columns (Reception load) →
  name c ∈ ["apply"; "about_courses"; "about_company"; "vacancies"; "news"] →
  default_value seq c = Some (VInt 1).
Proof.
  intros Hc Hn. cbn [columns Reception] in Hc. apply elem_of_app in Hc as [Hc|Hc].
  - exfalso. unfold BaseModel in Hc. rewrite !elem_of_cons, elem_of_nil in Hc.
    destruct Hc as [->|[->|[->|[]]]];
      cbn [name BaseModel_id BaseModel_created_at BaseModel_updated_at] in Hn;
      rewrite !elem_of_cons, elem_of_nil in Hn;
      repeat (destruct Hn as [Hn|Hn]; [discriminate Hn|]); exact Hn.
  - rewrite !elem_of_cons, elem_of_nil in Hc.
    destruct Hc as [->|[->|[->|[->|[->|[]]]]]]; reflexivity.
Qed.

(** Reception has no required column: each click counter that an
    admissible insertion leaves out is stored as 1, and the insertion is
    accepted whenever its [id] is not taken. *)
Theorem reception_counters_default_to_1 now vals seq db k :
  table_schema db "reception" = Some (columns (Reception load)) →
  next_id db "reception" = Some seq →
  k ∈ ["apply"; "about_courses"; "about_company"; "vacancies"; "news"] →
  vals !! k = None →
  admissible (columns (Reception load)) seq vals →
  row_id seq vals ∉ column db "reception" "id" →
  required (columns (Reception load)) = [] ∧
  (transaction (execute now (Insert "reception" vals)) db).2 = None ∧
  column (transaction (execute now (Insert "reception" vals)) db).1 "reception" k =
    column db "reception" k ++ [Some (VInt 1)].
Proof.
  intros Hs Hseq Hk Hv Ha Hid. split; [reflexivity|].
  pose proof Reception_in_metadata as Hm.
  destruct (table_of _ _ _ _ Hs Hseq) as (tb & Htb & Hcols & Hq).
  pose proof (columns_NoDup load _ Hm) as Hnd.
  assert (column db "reception" "id" = (λ r : Row, r !! "id") <$> rows tb) as Hcol
    by (unfold column; by rewrite (table_rows_lookup _ _ _ Htb)).
  rewrite (transaction_insert_admissible _ _ _ _ _ Htb) by (by rewrite ?Hcols, ?Hq).
  rewrite Hcols, Hq.
  assert (check_unique "reception" (columns (Reception load)) (rows tb)
            (fill (columns (Reception load)) seq vals) = Ok ()) as ->.
  { apply check_unique_Ok. intros c v o Hc Hu Hv' Ho Hov.
    destruct (unique_columns load _ c Hm Hc Hu) as [Hcid|[Hdep _]];
      [|discriminate Hdep].
    rewrite Hcid in Hv', Hov. rewrite (id_stored load) in Hv' by done.
    apply Hid. rewrite Hcol, Hv', <- Hov. by apply list_elem_of_fmap_2. }
  assert (check_foreign_keys db "reception" (columns (Reception load))
            (fill (columns (Reception load)) seq vals) = Ok ()) as ->.
  { apply check_foreign_keys_Ok. intros c t' k' v Hc Hfk _.
    destruct (foreign_key_columns load _ c t' k' Hm Hc Hfk) as (_ & _ & Href).
    unfold department_references in Href. cbn [tablename Reception] in Href.
    rewrite !elem_of_cons, elem_of_nil in Href.
    repeat (destruct Href as [Href|Href]; [discriminate Href|]). done. }
  change (Ok () ;; ?x) with x. cbn [fst snd]. split; [done|].
  change "reception" with (tablename (Reception load)).
  rewrite (column_after_insert _ _ _ _ _ Htb), Hcols. f_equal. f_equal.
  assert (k ∈ name <$> columns (Reception load)) as Hcolumn.
  { cbn [columns Reception]. rewrite fmap_app. apply elem_of_app. right. exact Hk. }
  apply list_elem_of_fmap in Hcolumn as (c & -> & Hc).
  rewrite (lookup_fill_given load) by done. rewrite Hv.
  by apply Reception_counter_default.
Qed.

(** A column declared unique or primary key, and NOT NULL, never comes to
    hold a value twice: the statement that would make it so is rejected. *)
Lemma key_column_preserved m c now s db :
  m ∈ metadata load →
  table_schema db (tablename m) = Some (columns m) →
  c ∈ columns m → is_unique c || is_primary_key c = true → is_nullable c = false →
  NoDup (column db (tablename m) (name c)) →
  NoDup (column (transaction (execute now s) db).1 (tablename m) (name c)).
Proof.
  intros Hm Hs Hc Hkey Hnn Hnd.
  apply table_schema_Some in Hs as (tb & Htb & Hcols).
  assert (column db (tablename m) (name c) = (λ r : Row, r !! name c) <$> rows tb)
    as Hcol by (unfold column; by rewrite (table_rows_lookup _ _ _ Htb)).
  assert (∀ (others : list Row) (r : Row),
            check_not_null (tablename m) (columns m) r = Ok () →
            check_unique (tablename m) (columns m) others r = Ok () →
            r !! name c ∉ (λ o : Row, o !! name c) <$> others) as Hfresh.
  { intros others r Hn Hu.
    destruct (proj1 (check_not_null_Ok _ _ _) Hn c Hc Hnn) as [v Hv]. rewrite Hv.
    intros (o & Hov & Ho)%list_elem_of_fmap.
    by apply (proj1 (check_unique_Ok _ _ _ _) Hu c v o). }
  destruct ((transaction (execute now s) db).2) as [e|] eqn:Hout.
  { unfold column. rewrite transaction_rows by (by rewrite Hout). exact Hnd. }
  apply transaction_committed in Hout.
  destruct (transaction (execute now s) db) as [db' oe]. cbn [fst snd] in *.
  rename Hout into Hexec.
  destruct s as [t vals|t k sets]; cbn [execute] in Hexec.
  - apply insert_row_accepted in Hexec as (tb' & Htb' & _ & _ & Hck & ->).
    apply check_constraints_Ok in Hck as (Hn & Hu & _).
    destruct (decide (t = tablename m)) as [->|Hne];
      [|by rewrite column_insert_ne].
    rewrite Htb in Htb'. injection Htb' as <-. rewrite Hcols in Hn, Hu.
    rewrite (column_after_insert _ _ _ _ _ Htb), Hcols.
    apply NoDup_app. split; [done|]. split; [|apply NoDup_singleton].
    intros x Hx ->%list_elem_of_singleton. revert Hx. rewrite Hcol.
    by apply Hfresh.
  - apply update_row_Ok in Hexec as (tb' & Htb' & [[_ ->]|(i & r & _ & Hn & Hu & ->)]);
      [done|].
    destruct (decide (t = tablename m)) as [->|Hne];
      [|by rewrite column_insert_ne].
    rewrite Htb in Htb'. injection Htb' as <-. rewrite Hcols in Hn, Hu.
    rewrite column_insert_eq. cbn [rows]. rewrite list_fmap_insert.
    apply NoDup_insert; [by rewrite <- Hcol|].
    rewrite <- list_fmap_delete, Hcols. by apply Hfresh.
Qed.

(** No statement, accepted or rejected, makes two Department rows share a
    name. *)
Theorem department_names_stay_distinct now s db :
  table_schema db "department" = Some (columns (Department load)) →
  NoDup (column db "department" "department_name") →
  NoDup (column (transaction (execute now s) db).1 "department" "department_name").
Proof.
  intros Hs Hnd.
  apply (key_column_preserved (Department load)
           (mkColumn "department_name" sa.String
              [nullable false; unique true; comment "Programming language name"]));
    try done.
  - apply Department_in_metadata.
  - cbn [columns Department]. apply elem_of_app. right. by apply list_elem_of_singleton.
Qed.
End Defaults.


(** * Referential integrity *)

Section Integrity.
Variable load : ModuleLoad.
Implicit Types (db : Database) (vals : Values) (r : Row) (m : Model).

Lemma references_resolve_alt db :
  references_resolve db ↔
  ∀ t cname k v, (t, cname, k) ∈ department_references →
    Some v ∈ column db t cname → Some v ∈ column db "department" k.
Proof.
  unfold references_resolve. rewrite Forall_forall. split.
  - intros H t cname k v Href Hv. specialize (H _ Href). cbn [fst snd] in H.
    rewrite Forall_forall in H. by destruct (H _ Hv).
  - intros H [[t cname] k] Href. cbn [fst snd]. rewrite Forall_forall.
    intros [v|] Hv; [right|by left]. by apply (H t cname k).
Qed.

Lemma schema_ok_table db m :
  schema_ok load db → m ∈ metadata load →
  ∃ tb, db !! tablename m = Some tb ∧ schema tb = columns m.
Proof.
  unfold schema_ok. rewrite Forall_forall. intros H Hm.
  by apply table_schema_Some, H.
Qed.

Lemma reference_model t cname k :
  (t, cname, k) ∈ department_references →
  t ≠ "department" ∧ ∃ m, m ∈ metadata load ∧ tablename m = t.
Proof.
  unfold department_references. rewrite !elem_of_cons, elem_of_nil.
  intros [H|[H|[H|[H|[]]]]]; injection H as -> -> ->; (split; [done|]).
  - exists (Customer load). split; [|done]. unfold metadata. rewrite !elem_of_cons. auto.
  - exists (Course load). split; [|done]. unfold metadata. rewrite !elem_of_cons. auto.
  - exists (Vacancy load). split; [|done]. unfold metadata. rewrite !elem_of_cons. auto 10.
  - exists (News load). split; [|done]. unfold metadata. rewrite !elem_of_cons. auto 10.
Qed.

Lemma department_key t cname k :
  (t, cname, k) ∈ department_references →
  ∃ c, c ∈ columns (Department load) ∧ name c = k.
Proof.
  unfold department_references. rewrite !elem_of_cons, elem_of_nil.
  intros [H|[H|[H|[H|[]]]]]; injection H as -> -> ->.
  - exists (mkColumn "department_name" sa.String
              [nullable false; unique true; comment "Programming language name"]).
    split; [|reflexivity]. cbn [columns Department]. apply elem_of_app.
    right. by apply list_elem_of_singleton.
  - exists BaseModel_id. split; [|done].
    by apply (BaseModel_id_column load), (Department_in_metadata load).
  - exists BaseModel_id. split; [|done].
    by apply (BaseModel_id_column load), (Department_in_metadata load).
  - exists BaseModel_id. split; [|done].
    by apply (BaseModel_id_column load), (Department_in_metadata load).
Qed.

Lemma update_row_Ok_checks now t k sets db db' :
  update_row now t k sets db = (db', None) →
  ∃ tb, db !! t = Some tb ∧
    (db' = db ∨
     ∃ i r, rows tb !! i = Some r ∧
       check_foreign_keys db t (schema tb) (apply_update now (schema tb) sets r) = Ok () ∧
       check_referenced db t (schema tb) r (apply_update now (schema tb) sets r) = Ok () ∧
       db' = <[t := mkTable (schema tb)
                      (<[i := apply_update now (schema tb) sets r]> (rows tb))
                      (sequence tb)]> db).
Proof.
  unfold update_row. destruct (db !! t) as [tb|]; [|done].
  intros H. exists tb. split; [done|].
  destruct (_ ;; _) as [[]|]; [|done].
  destruct (list_find _ (rows tb)) as [[i r]|] eqn:Hfind; [|left; congruence].
  right. exists i, r. apply list_find_Some in Hfind as (Hi & _). split; [done|].
  unfold check_constraints in H.
  destruct (check_not_null _ _ _) as [[]|]; [simpl in H|done].
  destruct (check_unique _ _ _ _) as [[]|]; [simpl in H|done].
  destruct (check_foreign_keys _ _ _ _) as [[]|] eqn:E3; [simpl in H|done].
  destruct (check_referenced _ _ _ _ _) as [[]|] eqn:E4; [simpl in H|done].
  by injection H as <-.
Qed.

Lemma check_referenced_Ok db t cols (old new : Row) c v :
  check_referenced db t cols old new = Ok () →
  c ∈ cols → old !! name c = Some v → referenced db t (name c) v = true →
  new !! name c = Some v.
Proof.
  unfold check_referenced. destruct (find _ cols) eqn:E; [done|].
  intros _ Hc Hold Href. apply list_elem_of_In in Hc.
  pose proof (find_none _ _ E c Hc) as Hf. cbn beta in Hf.
  rewrite Hold, Href, andb_true_r in Hf. apply negb_false_iff in Hf.
  by apply bool_decide_eq_true in Hf.
Qed.

Lemma referenced_true db t k v t0 tb0 c0 (o : Row) :
  db !! t0 = Some tb0 → c0 ∈ schema tb0 → get_foreign_key c0 = Some (t, k) →
  o ∈ rows tb0 → o !! name c0 = Some v →
  referenced db t k v = true.
Proof.
  intros Htb Hc Hfk Ho Hov. unfold referenced. apply existsb_exists.
  exists (t0, tb0). split; [by apply list_elem_of_In, elem_of_map_to_list|].
  cbn [snd]. apply existsb_exists. exists c0. split; [by apply list_elem_of_In|].
  rewrite Hfk, bool_decide_eq_true_2 by done. cbn [andb].
  apply existsb_holds. eauto.
Qed.

(** No statement leaves a dangling department reference: in a store that
    holds the declared tables and in which every reference names an
    existing Department, the same is true after any statement, accepted
    or rejected. *)
Theorem references_stay_resolved now s db :
  schema_ok load db →
  references_resolve db →
  references_resolve (transaction (execute now s) db).1.
Proof.
  intros Hok Hres. rewrite references_resolve_alt in Hres |- *.
  intros t0 cname k v Href.
  destruct ((transaction (execute now s) db).2) as [e|] eqn:Hout.
  { unfold column. rewrite !transaction_rows by (by rewrite Hout).
    by apply Hres. }
  apply transaction_committed in Hout.
  destruct (transaction (execute now s) db) as [db' oe]. cbn [fst snd] in *.
  rename Hout into Hexec.
  destruct (reference_model t0 cname k Href) as (Hnotdep & m0 & Hm0 & <-).
  destruct (department_reference_column load m0 cname k Hm0 Href)
    as (c0 & Hc0 & Hname & Hfk0 & _).
  destruct (schema_ok_table db m0 Hok Hm0) as (tb0 & Htb0 & Hcols0).
  destruct (schema_ok_table db _ Hok (Department_in_metadata load))
    as (dep & Hdep & Hdcols).
  cbn [tablename Department] in Hdep.
  destruct s as [t vals|t kid sets]; cbn [execute] in Hexec.
  - apply insert_row_accepted in Hexec as (tb & Htb & _ & _ & Hck & ->).
    apply check_constraints_Ok in Hck as (_ & _ & Hfks).
    assert (∀ x, x ∈ column db "department" k →
                 x ∈ column (<[t := stored tb vals]> db) "department" k) as Hgrow.
    { intros x Hx. destruct (decide (t = "department")) as [->|Hne].
      - rewrite (column_after_insert _ _ _ _ _ Htb). apply elem_of_app. by left.
      - by rewrite column_insert_ne. }
    destruct (decide (t = tablename m0)) as [->|Hne].
    + rewrite Htb0 in Htb. injection Htb as <-.
      rewrite (column_after_insert _ _ _ _ _ Htb0).
      intros [Hold|Hnew%list_elem_of_singleton]%elem_of_app; apply Hgrow.
      * by apply (Hres (tablename m0) cname k).
      * rewrite Hcols0 in Hfks, Hnew. rewrite <- Hname in Hnew.
        destruct (proj1 (check_foreign_keys_Ok _ _ _ _) Hfks c0 _ _ v Hc0 Hfk0)
          as (parent & p & Hparent & Hp & Hpk); [done|].
        apply elem_of_column. exists p. by rewrite (table_rows_lookup _ _ _ Hparent).
    + rewrite column_insert_ne by done. intros Hv. apply Hgrow.
      by apply (Hres (tablename m0) cname k).
  - apply update_row_Ok_checks in Hexec
      as (tb & Htb & [->|(i & r & Hi & Hfks & Hrefd & ->)]);
      [by apply Hres|].
    destruct (decide (t = tablename m0)) as [->|Hne].
    + rewrite Htb0 in Htb. injection Htb as <-.
      rewrite (column_insert_ne _ "department") by done.
      rewrite column_insert_eq. cbn [rows]. rewrite list_fmap_insert.
      intros [Hnew|Hold]%elem_of_insert_inv.
      * rewrite Hcols0 in Hfks, Hnew. rewrite <- Hname in Hnew.
        destruct (proj1 (check_foreign_keys_Ok _ _ _ _) Hfks c0 _ _ v Hc0 Hfk0)
          as (parent & p & Hparent & Hp & Hpk); [done|].
        apply elem_of_column. exists p. by rewrite (table_rows_lookup _ _ _ Hparent).
      * apply (Hres (tablename m0) cname k); [done|].
        unfold column. by rewrite (table_rows_lookup _ _ _ Htb0).
    + rewrite column_insert_ne by done. intros Hv.
      pose proof (Hres _ _ _ _ Href Hv) as Hin.
      destruct (decide (t = "department")) as [->|Hne'];
        [|by rewrite column_insert_ne].
      rewrite Hdep in Htb. injection Htb as <-.
      rewrite column_insert_eq. cbn [rows]. rewrite list_fmap_insert.
      unfold column in Hin. rewrite (table_rows_lookup _ _ _ Hdep) in Hin.
      apply list_elem_of_lookup in Hin as [j Hj].
      destruct (decide (j = i)) as [->|Hji].
      * rewrite list_lookup_fmap, Hi in Hj. cbn in Hj. injection Hj as Hrk.
        destruct (department_key _ _ _ Href) as (ck & Hck & Hckn).
        apply elem_of_column in Hv as (o & Ho & Hov).
        rewrite (table_rows_lookup _ _ _ Htb0) in Ho.
        assert (referenced db "department" k v = true) as Hrefd'.
        { apply (referenced_true db "department" k v (tablename m0) tb0 c0 o);
            try done; [by rewrite Hcols0|by rewrite Hname]. }
        rewrite Hdcols in Hrefd |- *. subst k.
        rewrite (check_referenced_Ok _ _ _ _ _ ck v Hrefd Hck Hrk Hrefd').
        apply list_elem_of_lookup. exists i. apply list_lookup_insert_eq.
        rewrite length_fmap. by apply lookup_lt_Some with r.
      * apply list_elem_of_lookup. exists j. by rewrite list_lookup_insert_ne.
Qed.
End Integrity.


(** * Relationships and [__repr__] *)

Section Relationships.
Variable load : ModuleLoad.
Implicit Types (db : Database) (r d : Row) (m : Model).

Lemma foreign_key_to_department m cname k :
  m ∈ metadata load → (tablename m, cname, k) ∈ department_references →
  foreign_key_to (columns m) "department" = Some (cname, k).
Proof.
  intros Hm Href. unfold department_references in Href.
  rewrite !elem_of_cons, elem_of_nil in Href.
  apply metadata_cases in Hm as [->|[->|[->|[->|[->| ->]]]]];
    cbn [tablename Reception Department Customer Course Vacancy News] in Href;
    repeat (destruct Href as [Href|Href]; [try discriminate Href|]); try done;
    injection Href as -> ->; reflexivity.
Qed.

Lemma find_unique_key k v (l : list Row) d :
  NoDup ((λ o : Row, o !! k) <$> l) → d ∈ l → d !! k = Some v →
  find (holds k v) l = Some d.
Proof.
  induction l as [|o l IH]; [by intros _ ?%elem_of_nil|].
  rewrite fmap_cons, NoDup_cons. intros [Hfresh Hnd] Hd Hv. cbn [find].
  apply elem_of_cons in Hd as [<-|Hd].
  - unfold holds. by rewrite bool_decide_eq_true_2.
  - unfold holds at 1. rewrite bool_decide_eq_false_2; [by apply IH|].
    intros Ho. apply Hfresh. rewrite Ho, <- Hv. by apply list_elem_of_fmap_2.
Qed.

Lemma find_holds k v (l : list Row) d :
  find (holds k v) l = Some d → d ∈ l ∧ d !! k = Some v.
Proof.
  intros [Hd Hv]%find_some. split; [by apply list_elem_of_In|].
  by apply bool_decide_eq_true in Hv.
Qed.

(** The two directions of a relationship agree: a dependent row is in the
    collection of a Department exactly when that Department is the row's
    [department], as long as the key the reference names is unique among
    the Department rows. *)
Theorem relationship_directions_agree m cname k db r d :
  m ∈ metadata load →
  (tablename m, cname, k) ∈ department_references →
  NoDup (column db "department" k) →
  r ∈ table_rows db (tablename m) →
  d ∈ table_rows db "department" →
  r ∈ one_to_many db m d ↔ many_to_one db m r = Some d.
Proof.
  intros Hm Href Hnd Hr Hd. unfold one_to_many, many_to_one.
  rewrite (foreign_key_to_department m cname k) by done. cbn [mbind option_bind fst snd].
  split.
  - destruct (d !! k) as [v|] eqn:Hdk; [|by intros ?%elem_of_nil].
    intros [_ Hrv]%list_elem_of_In%filter_In.
    apply bool_decide_eq_true in Hrv. rewrite Hrv. cbn [mbind option_bind].
    by apply find_unique_key.
  - destruct (r !! cname) as [v|] eqn:Hrc; [|done]. cbn [mbind option_bind].
    intros [_ Hdk]%find_holds. rewrite Hdk.
    apply list_elem_of_In, filter_In. split; [by apply list_elem_of_In|].
    by apply bool_decide_eq_true.
Qed.

Lemma many_to_one_resolved m cname k db r :
  m ∈ metadata load →
  (tablename m, cname, k) ∈ department_references →
  references_resolve db →
  r ∈ table_rows db (tablename m) →
  many_to_one db m r = None ↔ r !! cname = None.
Proof.
  intros Hm Href Hres Hr. unfold many_to_one.
  rewrite (foreign_key_to_department m cname k) by done. cbn [mbind option_bind fst snd].
  destruct (r !! cname) as [v|] eqn:Hrc; cbn [mbind option_bind]; [|done].
  split; [|done]. intros Hnone. exfalso.
  rewrite references_resolve_alt in Hres.
  assert (Some v ∈ column db (tablename m) cname) as Hv
    by (apply elem_of_column; eauto).
  apply (Hres _ _ _ _ Href), elem_of_column in Hv as (p & Hp & Hpk).
  apply list_elem_of_In in Hp. pose proof (find_none _ _ Hnone p Hp) as Hf.
  unfold holds in Hf. by rewrite bool_decide_eq_true_2 in Hf.
Qed.

Lemma Vacancy_in_metadata : Vacancy load ∈ metadata load.
Proof. unfold metadata. rewrite !elem_of_cons. auto 10. Qed.

Lemma News_in_metadata : News load ∈ metadata load.
Proof. unfold metadata. rewrite !elem_of_cons. auto 10. Qed.

Lemma Course_in_metadata : Course load ∈ metadata load.
Proof. unfold metadata. rewrite !elem_of_cons. auto 10. Qed.

Lemma many_to_one_found m cname k db r v :
  m ∈ metadata load →
  (tablename m, cname, k) ∈ department_references →
  references_resolve db →
  r ∈ table_rows db (tablename m) → r !! cname = Some v →
  ∃ d, many_to_one db m r = Some d ∧ d ∈ table_rows db "department" ∧ d !! k = Some v.
Proof.
  intros Hm Href Hres Hr Hv.
  destruct (many_to_one db m r) as [d|] eqn:E.
  - exists d. split; [done|]. unfold many_to_one in E.
    rewrite (foreign_key_to_department m cname k) in E by done.
    cbn [mbind option_bind fst snd] in E. rewrite Hv in E.
    cbn [mbind option_bind] in E. by apply find_holds in E.
  - apply (many_to_one_resolved m cname k) in E; [congruence|done..].
Qed.

(** With the relationship read as the join of its foreign key, [repr] of
    a stored Vacancy row, and of a stored News row, raises
    [AttributeError] exactly when the row has no department, which the
    schema allows; otherwise it returns the name of the Department that
    the row's [department_id] names, a dash and the row's label. *)
Theorem repr_needs_a_department isoformat db :
  references_resolve db →
  (∀ r, r ∈ table_rows db "vacancy" →
     (Vacancy_repr isoformat load db r = Raises AttributeError ↔
        r !! "department_id" = None) ∧
     (∀ v, r !! "department_id" = Some v →
        ∃ d, d ∈ table_rows db "department" ∧ d !! "id" = Some v ∧
             Vacancy_repr isoformat load db r =
               Returns (py_str isoformat (d !! "department_name") +:+ " - " +:+
                        py_str isoformat (r !! "vacancy_label")))) ∧
  (∀ r, r ∈ table_rows db "news" →
     (News_repr isoformat load db r = Raises AttributeError ↔
        r !! "department_id" = None) ∧
     (∀ v, r !! "department_id" = Some v →
        ∃ d, d ∈ table_rows db "department" ∧ d !! "id" = Some v ∧
             News_repr isoformat load db r =
               Returns (py_str isoformat (d !! "department_name") +:+ " - " +:+
                        py_str isoformat (r !! "news_label")))).
Proof.
  intros Hres.
  assert (("vacancy", "department_id", "id") ∈ department_references) as HrefV
    by (unfold department_references; rewrite !elem_of_cons; auto 10).
  assert (("news", "department_id", "id") ∈ department_references) as HrefN
    by (unfold department_references; rewrite !elem_of_cons; auto 10).
  split; intros r Hr.
  - pose proof (many_to_one_resolved (Vacancy load) "department_id" "id" db r
                  Vacancy_in_metadata HrefV Hres Hr) as HV.
    unfold Vacancy_repr. split.
    + rewrite <- HV. by destruct (many_to_one db (Vacancy load) r).
    + intros v Hv.
      destruct (many_to_one_found (Vacancy load) "department_id" "id" db r v
                  Vacancy_in_metadata HrefV Hres Hr Hv) as (d & -> & Hd & Hdv).
      by exists d.
  - pose proof (many_to_one_resolved (News load) "department_id" "id" db r
                  News_in_metadata HrefN Hres Hr) as HN.
    unfold News_repr. split.
    + rewrite <- HN. by destruct (many_to_one db (News load) r).
    + intros v Hv.
      destruct (many_to_one_found (News load) "department_id" "id" db r v
                  News_in_metadata HrefN Hres Hr Hv) as (d & -> & Hd & Hdv).
      by exists d.
Qed.

(** [repr] of a stored Course row never raises [AttributeError]: without
    a department it returns the text None, and with one it is the [repr]
    of that Department. *)
Theorem course_repr_is_its_department db r :
  references_resolve db →
  r ∈ table_rows db "course" →
  (r !! "department_id" = None → Course_repr load db r = Returns "None") ∧
  (∀ v, r !! "department_id" = Some v →
     ∃ d, d ∈ table_rows db "department" ∧ d !! "id" = Some v ∧
          Course_repr load db r = Department_repr d) ∧
  Course_repr load db r ≠ Raises AttributeError.
Proof.
  intros Hres Hr.
  assert (("course", "department_id", "id") ∈ department_references) as Href
    by (unfold department_references; rewrite !elem_of_cons; auto 10).
  pose proof (many_to_one_resolved (Course load) "department_id" "id" db r
                Course_in_metadata Href Hres Hr) as HC.
  unfold Course_repr. repeat split.
  - intros Hnull. apply HC in Hnull. by rewrite Hnull.
  - intros v Hv. destruct (many_to_one db (Course load) r) as [d|] eqn:E.
    + exists d. unfold many_to_one in E.
      rewrite (foreign_key_to_department (Course load) "department_id" "id")
        in E by auto using Course_in_metadata.
      cbn [mbind option_bind fst snd] in E. rewrite Hv in E.
      cbn [mbind option_bind] in E. by apply find_holds in E as [? ?].
    + rewrite (proj1 HC eq_refl) in Hv. discriminate Hv.
  - destruct (many_to_one db (Course load) r) as [d|]; [|done].
    unfold Department_repr. by destruct (d !! "department_name") as [[]|].
Qed.
End Relationships.


(** * The seeded store is consistent *)

Section SeededIntegrity.
Variables (load : ModuleLoad) (now : Z).

Lemma seeded_has_declared t :
  t ∈ tablename <$> metadata load → is_Some (seeded load !! t).
Proof.
  intros Ht.
  destruct (decide (t ∈ ["department"; "course"])) as [Hdc|Hother];
    [by apply seeded_has|].
  rewrite !elem_of_cons, elem_of_nil in Hother.
  pose proof (f_equal fst (script_course load)) as H3. cbn [fst] in H3.
  pose proof (f_equal fst (script_departments load)) as H2. cbn [fst] in H2.
  rewrite <- H3, insert_row_other by tauto.
  rewrite <- H2, flush_other by tauto.
  by apply lookup_create_all_empty.
Qed.

(** After a complete run of the seed script, on a store whose tables
    could be dropped, the six tables are in the store as declared and
    every department reference names an existing Department. *)
Theorem bootstrap_establishes_integrity (db d : Database) :
  drop_all (metadata load) db = Ok d →
  schema_ok load (recreate_database load now None db).1 ∧
  references_resolve (recreate_database load now None db).1.
Proof.
  intros Hdrop. rewrite (recreate_database_Ok _ _ _ _ _ Hdrop). cbn [fst].
  assert (∀ t, t ∈ tablename <$> metadata load →
               (seeded load ∪ db) !! t = seeded load !! t) as Hsame.
  { intros t [tb Htb]%seeded_has_declared.
    by rewrite (lookup_union_Some_l _ _ _ _ Htb). }
  split.
  - unfold schema_ok. rewrite Forall_forall. intros m Hm.
    unfold table_schema. rewrite Hsame by (by apply list_elem_of_fmap_2).
    apply metadata_cases in Hm as [->|[->|[->|[->|[->| ->]]]]];
      vm_compute; reflexivity.
  - assert (references_resolve (seeded load)) as Hres
      by (apply (bool_decide_unpack _); vm_compute; exact I).
    assert (∀ t k, t ∈ tablename <$> metadata load →
                   column (seeded load ∪ db) t k = column (seeded load) t k) as Hcol.
    { intros t k Ht. unfold column, table_rows. by rewrite Hsame. }
    rewrite references_resolve_alt in Hres |- *. intros t cname k v Href.
    assert (t ∈ tablename <$> metadata load ∧
            "department" ∈ tablename <$> metadata load) as [Ht Hd].
    { destruct (reference_model load t cname k Href) as (_ & m & Hm & <-).
      split; [by apply list_elem_of_fmap_2|].
      cbn [fmap list_fmap metadata]. rewrite !elem_of_cons. cbn. auto. }
    rewrite !Hcol by done. by apply Hres.
Qed.
End SeededIntegrity.


(** Instances of the further theorems on the seeded store, on [old_store],
    on [referred_store] and on [example_store]. *)

Lemma undeclared_tables_untouched_witness :
  (recreate_database (mkLoad 10 11) 20 None old_store).1 !! "alembic_version" =
    old_store !! "alembic_version" ∧
  (recreate_database (mkLoad 10 11) 20 None referred_store).1 !! "orders" =
    referred_store !! "orders".
Proof.
  split; apply undeclared_tables_untouched; by_evaluation.
Defined.

Lemma bootstrap_empties_other_tables_witness :
  Forall (λ t, table_rows (recreate_database (mkLoad 10 11) 20 None old_store).1 t = [] ∧
               next_id (recreate_database (mkLoad 10 11) 20 None old_store).1 t = Some 1)
    ["reception"; "customer"; "vacancy"; "news"].
Proof.
  apply (bootstrap_empties_other_tables (mkLoad 10 11) 20 old_store
           {["alembic_version" := other_table]}).
  vm_compute. reflexivity.
Defined.

Lemma first_stages_all_or_nothing_witness :
  recreate_database (mkLoad 10 11) 20 None referred_store =
    (referred_store, Some (InternalError "department")).
Proof.
  apply (proj1 (proj2 (first_stages_all_or_nothing (mkLoad 10 11) 20 referred_store))).
  vm_compute. reflexivity.
Defined.

Lemma seeded_rows_carry_load_time_witness :
  let load := mkLoad 10 11 in
  select (recreate_database load 20 None old_store).1 "department"
    ["created_at"; "updated_at"] =
    replicate 4 [Some (VTime (created_at_now load)); Some (VTime (updated_at_now load))] ∧
  select (recreate_database load 20 None old_store).1 "course"
    ["created_at"; "updated_at"] =
    [[Some (VTime (created_at_now load)); Some (VTime (updated_at_now load))]].
Proof.
  intros load.
  apply (seeded_rows_carry_load_time load 20 old_store {["alembic_version" := other_table]}).
  vm_compute. reflexivity.
Defined.

Lemma bootstrap_establishes_integrity_witness :
  let load := mkLoad 10 11 in
  schema_ok load (recreate_database load 20 None old_store).1 ∧
  references_resolve (recreate_database load 20 None old_store).1.
Proof.
  intros load.
  apply (bootstrap_establishes_integrity load 20 old_store
           {["alembic_version" := other_table]}).
  vm_compute. reflexivity.
Defined.

Lemma insertion_accepted_iff_witness :
  let load := mkLoad 10 11 in
  let m := Course load in
  let vals := values [("department_info", Some (VStr "Go"));
                      ("department_id", Some (VInt 2))] in
  let db := seeded load in
  (transaction (execute 20 (Insert (tablename m) vals)) db).2 = None ↔
  admissible (columns m) 2 vals ∧
  (row_id 2 vals ∉ column db (tablename m) "id") ∧
  (m = Department load → ∀ v, vals !! "department_name" = Some (Some v) →
     Some v ∉ column db "department" "department_name") ∧
  (∀ cname k v, (tablename m, cname, k) ∈ department_references →
     vals !! cname = Some (Some v) → Some v ∈ column db "department" k).
Proof.
  intros load m vals db. apply (insertion_accepted_iff load m 20 vals 2 db).
  - by_evaluation.
  - vm_compute. reflexivity.
  - vm_compute. reflexivity.
  - vm_compute. reflexivity.
Defined.

Lemma missing_required_value_rejected_witness :
  let load := mkLoad 10 11 in
  let m := Customer load in
  let vals := values [("chat_id", Some (VInt 7))] in
  let result := transaction (execute 20 (Insert (tablename m) vals)) (seeded load) in
  (∃ k', k' ∈ not_null (columns m) ∧ given vals k' = None ∧
         result.2 = Some (IntegrityError NotNullViolation (tablename m) k')) ∧
  (∀ t, table_rows result.1 t = table_rows (seeded load) t) ∧
  next_id result.1 (tablename m) =
    Some (if decide (vals !! "id" = None) then 1 + 1 else 1).
Proof.
  intros load m vals.
  apply (missing_required_value_rejected load m 20 vals "first_name" 1 (seeded load)).
  - by_evaluation.
  - vm_compute. reflexivity.
  - vm_compute. reflexivity.
  - by_evaluation.
  - reflexivity.
  - by_evaluation.
  - reflexivity.
Defined.

Lemma taken_id_rejected_witness :
  let load := mkLoad 10 11 in
  let m := Department load in
  let vals := values [("id", Some (VInt 1)); ("department_name", Some (VStr "Go"))] in
  let result := transaction (execute 20 (Insert (tablename m) vals)) (seeded load) in
  result.2 = Some (IntegrityError UniqueViolation (tablename m) "id") ∧
  (∀ t, table_rows result.1 t = table_rows (seeded load) t) ∧
  next_id result.1 (tablename m) =
    Some (if decide (vals !! "id" = None) then 1 + 1 else 1).
Proof.
  intros load m vals.
  apply (taken_id_rejected load m 20 vals 1 (seeded load)).
  - by_evaluation.
  - vm_compute. reflexivity.
  - vm_compute. reflexivity.
  - by_evaluation.
  - by_evaluation.
Defined.

Lemma reception_counters_default_to_1_witness :
  let load := mkLoad 10 11 in
  required (columns (Reception load)) = [] ∧
  (transaction (execute 20 (Insert "reception" ∅)) (seeded load)).2 = None ∧
  column (transaction (execute 20 (Insert "reception" ∅)) (seeded load)).1
    "reception" "apply" =
  column (seeded load) "reception" "apply" ++ [Some (VInt 1)].
Proof.
  intros load.
  apply (reception_counters_default_to_1 load 20 ∅ 1 (seeded load) "apply").
  - vm_compute. reflexivity.
  - vm_compute. reflexivity.
  - by_evaluation.
  - reflexivity.
  - by_evaluation.
  - by_evaluation.
Defined.

Lemma department_names_stay_distinct_witness :
  let load := mkLoad 10 11 in
  let s := Update "department" 2 {["department_name" := Some (VStr "Python")]} in
  NoDup (column (transaction (execute 20 s) (seeded load)).1
           "department" "department_name").
Proof.
  intros load s. apply (department_names_stay_distinct load 20 s (seeded load)).
  - vm_compute. reflexivity.
  - by_evaluation.
Defined.

Lemma references_stay_resolved_witness :
  let load := mkLoad 10 11 in
  let s := Update "department" 1 {["id" := Some (VInt 9)]} in
  references_resolve (transaction (execute 20 s) (seeded load)).1.
Proof.
  intros load s. apply (references_stay_resolved load 20 s (seeded load)).
  - by_evaluation.
  - by_evaluation.
Defined.

Lemma relationship_directions_agree_witness :
  let load := mkLoad 10 11 in
  let db := seeded load in
  let r := first_row db "course" in
  let d := first_row db "department" in
  r ∈ one_to_many db (Course load) d ↔ many_to_one db (Course load) r = Some d.
Proof.
  intros load db r d.
  apply (relationship_directions_agree load (Course load) "department_id" "id" db r d).
  - by_evaluation.
  - by_evaluation.
  - by_evaluation.
  - by_evaluation.
  - by_evaluation.
Defined.

Lemma repr_needs_a_department_witness :
  let load := mkLoad 10 11 in
  let isoformat : Z → string := pretty in
  let db := example_store in
  (Vacancy_repr isoformat load db (first_row db "vacancy") = Raises AttributeError ↔
     first_row db "vacancy" !! "department_id" = None) ∧
  (∀ v, first_row db "news" !! "department_id" = Some v →
     ∃ d, d ∈ table_rows db "department" ∧ d !! "id" = Some v ∧
          News_repr isoformat load db (first_row db "news") =
            Returns (py_str isoformat (d !! "department_name") +:+ " - " +:+
                     py_str isoformat (first_row db "news" !! "news_label"))).
Proof.
  intros load isoformat db.
  assert (references_resolve db) as Hres by by_evaluation.
  destruct (repr_needs_a_department load isoformat db Hres) as [HV HN].
  split.
  - apply HV. by_evaluation.
  - apply HN. by_evaluation.
Defined.

Lemma course_repr_is_its_department_witness :
  let load := mkLoad 10 11 in
  let db := seeded load in
  let r := first_row db "course" in
  (r !! "department_id" = None → Course_repr load db r = Returns "None") ∧
  (∀ v, r !! "department_id" = Some v →
     ∃ d, d ∈ table_rows db "department" ∧ d !! "id" = Some v ∧
          Course_repr load db r = Department_repr d) ∧
  Course_repr load db r ≠ Raises AttributeError.
Proof.
  intros load db r. apply (course_repr_is_its_department load db r).
  - by_evaluation.
  - by_evaluation.
Defined.
